(* ===== verification/_CoqProject ===== *)
-Q . S2P
Prelude.v
JsValue.v
ObjectId.v
Schema.v
Store.v
Collection.v
Handlers.v
Client.v
System.v
