(* ===== verification/Prelude.v ===== *)
(** * A verification development for the Blogging-Platform service

    The repository is a small blog-post CRUD service written in
    JavaScript:
    - [src/index.js] is an Express server with one handler per endpoint
      ([POST /blogs], [GET /blogs], [GET /blogs/:id], [PUT /blogs/:id],
      [DELETE /blogs/:id]); each handler checks its input, makes one call
      on the Mongoose model [Blog], and maps the outcome to an HTTP status
      and a JSON envelope [{success, message, data?, count?, error?}];
    - [src/models/Blog.js] declares the Mongoose schema of a blog post
      (title required and trimmed, body required, author trimmed with
      default ["Anonymous"], timestamps [createdAt]/[updatedAt]);
    - [src/public/script.js] is the browser client: it validates and
      submits the form, chooses POST or PUT, lists, edits and deletes.

    The handlers never touch the database engine directly: they go
    through the Mongoose model, which casts the raw request values to
    the schema's types, applies setters ([trim]) and defaults, runs the
    validators, assigns the [_id] (an ObjectId) and the timestamps, and
    performs the insert, lookup, update or delete.

    ** Files, in dependency order

    - [Prelude] (this file): the [result] type of fallible operations,
      its bind notation in [blog_scope], the [blog] hint database, the
      development's Ltac tactics and the list and option lemmas shared by
      the components.
    - [JsValue]: the JavaScript values a JSON request body can hold
      ([jval]), JavaScript truthiness ([truthy], used by [if (!title)]),
      the [||] operator ([js_or]), property access on a parsed body
      ([prop], last duplicate key wins as in [JSON.parse]), [String()]
      on numbers and booleans, and [String.prototype.trim] ([js_trim])
      on ASCII strings.
    - [ObjectId]: the identifier format of the store: the 24-digit hex
      syntax ([isValid], which models [mongoose.Types.ObjectId.isValid]
      on a route parameter), parsing to the 96-bit value ([oid_of_hex])
      and printing ([oid_to_hex]), and the generator of fresh ids
      (timestamp, process-unique value, 24-bit counter).
    - [Schema]: the stored document [Blog] (the fields of [Blog.js] plus
      [_id], [createdAt], [updatedAt], [__v]), Mongoose's string cast
      ([cast_string]), the [trim] setter ([set_path]), the [required]
      validators ([check_required], [check_optional]), the [author]
      default, the construction and validation of a new document
      ([make_draft], [validate_new]) and of an update ([cast_update],
      [validate_update], [apply_update]), and the Mongoose errors
      ([merror]) with their messages.
    - [Store]: the persistence adapter. The typeclass [BlogModel] holds
      the five model calls of [index.js] ([save], [find] sorted by
      [createdAt] descending, [findById], [findByIdAndUpdate],
      [findByIdAndDelete]); the typeclass [BlogModelLaws] is their
      contract on an abstract finite map [gmap Z Blog] of stored posts.
    - [Collection]: the [posts] collection as a list of documents and
      the ObjectId generator's state; [Collection_model] implements
      [BlogModel] with it and [Collection_laws] discharges the contract
      (the refinement of the map by the collection); [save_seq] runs
      creates one after the other.
    - [Handlers]: the five handlers of [index.js] ([create_blog],
      [list_blogs], [get_blog], [update_blog], [delete_blog]) in a
      Section over any [BlogModel], in the source's guard order, and the
      router ([route_of], [route]); [Down_model] is a store whose every
      call fails.
    - [Client]: the page state of [script.js] ([ui]) and every handler
      of it as a step on that state: [showToast] and its timeout
      ([hideToast]), [resetForm], [loadBlogs], the form submission split
      at its [await] into [submit_request] and [submit_done], [editBlog]
      and [deleteBlog], and the rendering of a post ([render_card],
      [escapeHtml]).
    - [System]: the server as a sequence of routed requests, the states
      reachable from a valid store ([reachable]), and the client/server
      composition.

    ** What the theorems show (claim ids of the manifest)

    - Endpoint contracts (Handlers, C1-C5): every branch of each
      handler, errors included, against the store contract.
    - Status mapping for every store (Handlers, C6-C8): 400 for a falsy
      title or body and for a malformed id, always before the store is
      called; every model error is a 500 with the error's message.
    - System (System, C9-C16): every reachable store holds only posts
      with non-empty title and body filed under their id; a create, an
      update and a delete are seen by a following GET; the number of
      stored posts changes by the created minus the deleted; a
      whitespace-only title is answered 500, not 400; a whitespace author
      is stored as the empty string; a form the client accepts is stored.
    - Client (Client, C17-C20): after a successful update the button
      keeps the label "Update Blog Post" while the form is in create
      mode (a bug of [script.js]); the request the form sends; the
      escaping of post text has no angle bracket and is injective.
    - Ids (ObjectId and Collection, C21-C24): the hex form of an id
      parses back to it and parsing is printing up to case; a saved
      post's id carries the request time and the next counter value;
      fewer than 0xffffff creates never collide on the unique index.
    - Refinement (Collection, C25): the concrete collection satisfies
      the store contract and keeps its invariant.

    ** Bounds and fuel

    Every definition is structurally recursive and runs without fuel.
    Ids are the 96-bit integers of a 12-byte ObjectId ([0 <= id < 2^96],
    an invariant of the collection). The generator's timestamp field is
    the time in seconds modulo 2^32 and its counter is taken modulo
    0xffffff, as the bson library does; the uniqueness theorem is stated
    for fewer than 0xffffff generations, the period of the counter.
    Counts are [Z.of_nat] of list lengths and map sizes, so they do not
    overflow.

    Strings are modelled as Rocq [string] (sequences of 8-bit units);
    [trim] removes the ASCII whitespace and line terminators of
    ECMAScript (tab, line feed, vertical tab, form feed, carriage
    return, space); non-ASCII whitespace is outside the model. Times are
    milliseconds since the epoch as [Z], passed explicitly to every
    request, since [Date.now()] is the environment's.

    Not modelled: the HTTP transport and Express's JSON parsing (a
    request is given by its method, path segments and parsed body), the
    MongoDB engine's storage and networking (the collection is an
    in-memory list), the process exit on a failed [mongoose.connect]
    (there is no state to verify there), [app.listen], the static file
    serving of [express.static] (the router only records that [GET /]
    sends the page), and of the client's DOM work the date formatting by
    [toLocaleString], the smooth scroll of [editBlog] and the
    [confirm] dialog, whose answer is an input of [deleteBlog_request].
    Concurrency between requests is not modelled: each handler runs as
    one step, which matches the one store call each handler makes. *)

From stdpp Require Import base list.
From Stdlib Require Import ZArith String.

Declare Scope blog_scope.
Delimit Scope blog_scope with blog.
Local Open Scope blog_scope.

Create HintDb blog.
Create Rewrite HintDb blog_rw.

(** ** Fallible computations *)

(** The outcome of a call that can throw: [Ok] for a returned value,
    [Err] for the exception a [catch] block receives. *)
Inductive result (A E : Type) : Type :=
| Ok (a : A)
| Err (e : E).

Arguments Ok {A E} a.
Arguments Err {A E} e.

Definition result_bind {A B E : Type} (r : result A E) (k : A -> result B E)
  : result B E :=
  match r with
  | Ok a => k a
  | Err e => Err e
  end.

Definition result_map {A B E : Type} (f : A -> B) (r : result A E)
  : result B E :=
  match r with
  | Ok a => Ok (f a)
  | Err e => Err e
  end.

Definition is_ok {A E : Type} (r : result A E) : bool :=
  match r with Ok _ => true | Err _ => false end.

Notation "'let?' x := c 'in' k" := (result_bind c (fun x => k))
  (at level 100, x name, c at level 100, k at level 200) : blog_scope.

Lemma result_bind_ok {A B E : Type} (a : A) (k : A -> result B E) :
  result_bind (Ok a) k = k a.
Proof. reflexivity. Qed.

Lemma result_bind_err {A B E : Type} (e : E) (k : A -> result B E) :
  result_bind (Err e) k = Err e.
Proof. reflexivity. Qed.

Lemma result_bind_Ok_inv {A B E : Type} (r : result A E) (k : A -> result B E) b :
  result_bind r k = Ok b -> exists a, r = Ok a /\ k a = Ok b.
Proof. destruct r as [a|e]; simpl; [eauto | discriminate]. Qed.

#[export] Hint Rewrite @result_bind_ok @result_bind_err : blog_rw.

(** ** Tactics *)

(** Case on the first [if] or [match] scrutinee of the goal, keeping the
    equation. *)
Ltac case_if :=
  match goal with
  | |- context [if ?c then _ else _] => let E := fresh "E" in destruct c eqn:E
  | |- context [match ?c with _ => _ end] => let E := fresh "E" in destruct c eqn:E
  end.

Ltac case_if_in H :=
  match type of H with
  | context [if ?c then _ else _] => let E := fresh "E" in destruct c eqn:E
  | context [match ?c with _ => _ end] => let E := fresh "E" in destruct c eqn:E
  end.

Ltac invc H := inversion H; subst; clear H.

(** Unfold with the development's rewriting database and simplify. *)
Ltac blog_simpl := repeat (autorewrite with blog_rw in *; simpl in *).

(** ** Shared list lemmas *)

Section ListFacts.
Context {A : Type}.

Lemma Forall_List_filter (P : A -> Prop) (f : A -> bool) (l : list A) :
  Forall P l -> Forall P (List.filter f l).
Proof.
  induction 1 as [|x l Hx _ IH]; simpl; [constructor|].
  destruct (f x); auto.
Qed.

Lemma NoDup_map_filter {B : Type} (g : A -> B) (f : A -> bool) (l : list A) :
  NoDup (map g l) -> NoDup (map g (List.filter f l)).
Proof.
  induction l as [|x l IH]; simpl; intros Hnd; [constructor|].
  inversion Hnd as [|? ? Hx Hl]; subst.
  destruct (f x); simpl; [constructor|]; auto.
  intros Hin. apply Hx. apply list_elem_of_In in Hin. apply list_elem_of_In.
  apply in_map_iff in Hin as (y & Hy & Hyl). rewrite <- Hy.
  apply in_map. apply filter_In in Hyl. tauto.
Qed.
End ListFacts.

#[export] Hint Resolve Forall_List_filter NoDup_map_filter : blog.
