(* ===== verification/JsValue.v ===== *)
(** * JavaScript values of a parsed request body

    [express.json()] parses a request body with [JSON.parse]; the handlers
    then destructure [const { title, body, author } = req.body] and test
    each value with [!value] (ECMAScript ToBoolean), combine with [||],
    and hand the values to Mongoose, which converts them with [String()]
    and trims them with [String.prototype.trim].  This file holds those
    JavaScript semantics, shared by the schema, the handlers and the
    client. *)

From stdpp Require Import base list.
From Stdlib Require Import ZArith String Ascii DecimalString.
From S2P Require Import Prelude.

Local Open Scope string_scope.

(** ** Values *)

(** A value reachable from [JSON.parse]: JSON numbers are modelled by
    integers (a body field is a title, a body or an author; fractional
    numbers only matter through their truthiness and their decimal
    rendering, both of which are kept for integers); [JUndef] is the
    value of an absent property. Objects keep their members in source
    order, duplicates included. *)
Inductive jval : Type :=
| JUndef
| JNull
| JBool (b : bool)
| JNum (n : Z)
| JStr (s : string)
| JArr (xs : list jval)
| JObj (members : list (string * jval)).

(** The empty-string test of JavaScript ([s.length === 0]). *)
Definition is_empty (s : string) : bool :=
  match s with EmptyString => true | String _ _ => false end.

(** ECMAScript ToBoolean: [undefined], [null], [false], [0] and [""]
    are falsy, every other value (including every array and object) is
    truthy. *)
Definition truthy (v : jval) : bool :=
  match v with
  | JUndef | JNull => false
  | JBool b => b
  | JNum n => negb (Z.eqb n 0)
  | JStr s => negb (is_empty s)
  | JArr _ | JObj _ => true
  end.

(** [a || b]: the left operand when it is truthy, the right one
    otherwise (the value itself, not a boolean). *)
Definition js_or (a b : jval) : jval := if truthy a then a else b.

(** Property access [obj.k] on a parsed body. [JSON.parse] keeps the
    last of duplicate keys; a property missing from an object, and any
    property of a non-object (an array body), reads as [undefined]. *)
Fixpoint assoc_last (k : string) (ms : list (string * jval)) : jval :=
  match ms with
  | [] => JUndef
  | (k', v) :: rest =>
      match assoc_last k rest with
      | JUndef => if String.eqb k k' then v else JUndef
      | w => w
      end
  end.

Definition prop (obj : jval) (k : string) : jval :=
  match obj with
  | JObj ms => assoc_last k ms
  | _ => JUndef
  end.

(** [String(n)] for an integral number: its decimal representation. *)
Definition number_to_string (n : Z) : string :=
  NilZero.string_of_int (Z.to_int n).

Definition bool_to_string (b : bool) : string :=
  if b then "true" else "false".

(** ** [String.prototype.trim] *)

(** The ECMAScript WhiteSpace and LineTerminator code points that are
    ASCII: TAB, LF, VT, FF, CR and SPACE. *)
Definition is_js_ws (c : ascii) : bool :=
  let n := nat_of_ascii c in
  ((9 <=? n) && (n <=? 13))%nat || (n =? 32)%nat.

Fixpoint trim_start (s : string) : string :=
  match s with
  | EmptyString => EmptyString
  | String c s' => if is_js_ws c then trim_start s' else s
  end.

Fixpoint trim_end (s : string) : string :=
  match s with
  | EmptyString => EmptyString
  | String c s' =>
      let r := trim_end s' in
      if is_js_ws c && is_empty r then EmptyString else String c r
  end.

Definition js_trim (s : string) : string := trim_end (trim_start s).

(** Every unit of the string is whitespace. *)
Fixpoint all_ws (s : string) : bool :=
  match s with
  | EmptyString => true
  | String c s' => is_js_ws c && all_ws s'
  end.

(** The first unit, when there is one, is not whitespace. *)
Definition no_lead_ws (s : string) : bool :=
  match s with
  | EmptyString => true
  | String c _ => negb (is_js_ws c)
  end.

(** ** Lemmas *)

Lemma truthy_str (s : string) : truthy (JStr s) = negb (is_empty s).
Proof. reflexivity. Qed.

Lemma js_or_truthy (a b : jval) : truthy a = true -> js_or a b = a.
Proof. unfold js_or. by intros ->. Qed.

Lemma js_or_falsy (a b : jval) : truthy a = false -> js_or a b = b.
Proof. unfold js_or. by intros ->. Qed.

Lemma trim_start_no_lead (s : string) : no_lead_ws (trim_start s) = true.
Proof.
  induction s as [|c s IH]; simpl; [reflexivity|].
  destruct (is_js_ws c) eqn:E; simpl; [exact IH|]. by rewrite E.
Qed.

Lemma trim_start_id (s : string) : no_lead_ws s = true -> trim_start s = s.
Proof.
  destruct s as [|c s]; simpl; [done|].
  intros H. destruct (is_js_ws c); simpl in *; done.
Qed.

Lemma trim_end_no_lead (s : string) :
  no_lead_ws s = true -> no_lead_ws (trim_end s) = true.
Proof.
  destruct s as [|c s]; simpl; [done|].
  intros H. destruct (is_js_ws c) eqn:E; simpl in *; [discriminate|by rewrite E].
Qed.

Lemma trim_end_idem (s : string) : trim_end (trim_end s) = trim_end s.
Proof.
  induction s as [|c s IH]; simpl; [reflexivity|].
  destruct (is_js_ws c && is_empty (trim_end s)) eqn:E; simpl; [reflexivity|].
  by rewrite IH, E.
Qed.

(** Trimming twice is trimming once: a value the client already trimmed
    is stored unchanged by the schema's [trim] setter. *)
Lemma js_trim_idem (s : string) : js_trim (js_trim s) = js_trim s.
Proof.
  unfold js_trim.
  rewrite (trim_start_id (trim_end (trim_start s))).
  - apply trim_end_idem.
  - apply trim_end_no_lead, trim_start_no_lead.
Qed.

Lemma trim_end_empty_iff (s : string) : trim_end s = EmptyString <-> all_ws s = true.
Proof.
  induction s as [|c s IH]; simpl; [done|].
  destruct (is_js_ws c) eqn:Ec; simpl.
  - destruct (is_empty (trim_end s)) eqn:Ee; simpl.
    + split; [intros _|done]. apply IH. by destruct (trim_end s).
    + split; [discriminate|]. intros H%IH. by rewrite H in Ee.
  - split; discriminate.
Qed.

Lemma trim_start_all_ws (s : string) : all_ws (trim_start s) = all_ws s.
Proof.
  induction s as [|c s IH]; simpl; [reflexivity|].
  destruct (is_js_ws c) eqn:E; simpl; [exact IH|]. by rewrite E.
Qed.

(** The trimmed string is empty exactly when the string is blank. *)
Lemma js_trim_empty_iff (s : string) : js_trim s = EmptyString <-> all_ws s = true.
Proof. unfold js_trim. rewrite trim_end_empty_iff. by rewrite trim_start_all_ws. Qed.

Lemma is_empty_iff (s : string) : is_empty s = true <-> s = EmptyString.
Proof. destruct s; simpl; split; congruence. Qed.

#[export] Hint Rewrite trim_end_idem js_trim_idem truthy_str : blog_rw.
#[export] Hint Resolve js_or_truthy js_or_falsy trim_start_no_lead : blog.

Lemma js_or_str (a : string) (d : jval) :
  js_or (JStr a) d = if is_empty a then d else JStr a.
Proof. unfold js_or. simpl. by destruct (is_empty a). Qed.

Lemma truthy_JStr_nonempty (s : string) : is_empty s = false -> truthy (JStr s) = true.
Proof. simpl. by intros ->. Qed.
