(* ===== verification/ObjectId.v ===== *)
(** * ObjectId: the identifier format of the store

    The handlers reject a route parameter with
    [!mongoose.Types.ObjectId.isValid(id)] before any query, and Mongoose
    casts a valid one with [new ObjectId(id)].  An ObjectId is 12 bytes
    (a 96-bit value), written as 24 hexadecimal digits; the string form
    is accepted in either case and printed in lower case
    ([toHexString]).  New ids are made by [ObjectId.generate]: a 4-byte
    big-endian timestamp in seconds, a 5-byte value drawn once per
    process, and a 3-byte counter advanced by
    [index = (index + 1) % 0xffffff].

    This file models the bson library's [ObjectId] (version 6, where
    [isValid] on a string is [validateHexString]: length 24 and hex
    digits only); the library is not part of the repository, so its
    definitions are modelled from the spec's identifier format and the
    library's documented behaviour. *)

From stdpp Require Import base list.
From Stdlib Require Import ZArith String Ascii Lia.
From S2P Require Import Prelude.

Local Open Scope Z_scope.

(** ** Hex digits *)

Definition in_range (lo hi : nat) (c : ascii) : bool :=
  let n := nat_of_ascii c in ((lo <=? n) && (n <=? hi))%nat.

Definition is_hex_digit (c : ascii) : bool :=
  in_range 48 57 c || in_range 97 102 c || in_range 65 70 c.

(** The value of a hex digit ([0] for a unit that is not one, never
    used on those). *)
Definition hex_val (c : ascii) : Z :=
  let n := Z.of_nat (nat_of_ascii c) in
  if in_range 48 57 c then n - 48
  else if in_range 97 102 c then n - 87
  else if in_range 65 70 c then n - 55
  else 0.

(** The lower-case digit of a value below 16. *)
Definition hex_char (d : Z) : ascii :=
  if d <? 10 then ascii_of_nat (Z.to_nat (48 + d))
  else ascii_of_nat (Z.to_nat (87 + d)).

Definition lower_hex (c : ascii) : ascii :=
  if in_range 65 70 c then ascii_of_nat (nat_of_ascii c + 32) else c.

Fixpoint all_hex (s : string) : bool :=
  match s with
  | EmptyString => true
  | String c s' => is_hex_digit c && all_hex s'
  end.

Fixpoint lower_string (s : string) : string :=
  match s with
  | EmptyString => EmptyString
  | String c s' => String (lower_hex c) (lower_string s')
  end.

(** ** The string form *)

(** [ObjectId.isValid(id)] on a string: 24 hex digits. *)
Definition isValid (s : string) : bool :=
  (String.length s =? 24)%nat && all_hex s.

(** Big-endian accumulation of the digits after [acc]. *)
Fixpoint hex_value (s : string) (acc : Z) : Z :=
  match s with
  | EmptyString => acc
  | String c s' => hex_value s' (acc * 16 + hex_val c)
  end.

(** [new ObjectId(s)] on a string: the 96-bit value of a valid one. *)
Definition oid_of_hex (s : string) : option Z :=
  if isValid s then Some (hex_value s 0) else None.

(** The [k] low hex digits of [n], most significant first. *)
Fixpoint hex_digits (k : nat) (n : Z) : string :=
  match k with
  | O => EmptyString
  | S k' =>
      String (hex_char (Z.land (Z.shiftr n (4 * Z.of_nat k')) 15))
             (hex_digits k' n)
  end.

(** [oid.toHexString()]: 24 lower-case digits. *)
Definition oid_to_hex (n : Z) : string := hex_digits 24 n.

(** ** The generator *)

(** The process-wide state of [ObjectId.generate]: the counter
    [ObjectId.index] and the 5-byte [PROCESS_UNIQUE]. *)
Record oid_gen := mk_oid_gen {
  index : Z;
  process_unique : Z
}.

Definition inc_modulus : Z := 16777215.  (* 0xffffff *)

(** [getInc]: [ObjectId.index = (ObjectId.index + 1) % 0xffffff]. *)
Definition get_inc (g : oid_gen) : Z * oid_gen :=
  let i := (index g + 1) mod inc_modulus in
  (i, mk_oid_gen i (process_unique g)).

(** The 12 bytes as one value: [setUint32(0, time)] (which wraps the
    time modulo 2^32), the five process bytes, and the three low bytes of
    the counter ([inc & 0xff], [(inc >> 8) & 0xff], [(inc >> 16) & 0xff]). *)
Definition oid_bytes (time pu inc : Z) : Z :=
  Z.lor (Z.shiftl (time mod 2 ^ 32) 64)
        (Z.lor (Z.shiftl (pu mod 2 ^ 40) 24) (Z.land inc (2 ^ 24 - 1))).

(** [ObjectId.generate()] at wall-clock time [now] (milliseconds):
    the timestamp is [Math.floor(Date.now() / 1000)]. *)
Definition generate (now : Z) (g : oid_gen) : Z * oid_gen :=
  let '(inc, g') := get_inc g in
  (oid_bytes (now / 1000) (process_unique g) inc, g').

(** The fields read back from an id. *)
Definition oid_timestamp (oid : Z) : Z := Z.shiftr oid 64.
Definition oid_counter (oid : Z) : Z := Z.land oid (2 ^ 24 - 1).

(** ** Digit lemmas, by evaluation over every 8-bit unit *)

Definition digit_ok (n : nat) : bool :=
  let c := ascii_of_nat n in
  implb (is_hex_digit c)
    ((0 <=? hex_val c) && (hex_val c <? 16) &&
     Ascii.eqb (hex_char (hex_val c)) (lower_hex c)).

Definition value_ok (n : nat) : bool :=
  let d := Z.of_nat n in
  is_hex_digit (hex_char d) && (hex_val (hex_char d) =? d).

Lemma digit_table : forallb digit_ok (seq 0 256) = true.
Proof. vm_compute. reflexivity. Qed.

Lemma value_table : forallb value_ok (seq 0 16) = true.
Proof. vm_compute. reflexivity. Qed.

Lemma hex_val_spec (c : ascii) :
  is_hex_digit c = true ->
  0 <= hex_val c < 16 /\ hex_char (hex_val c) = lower_hex c.
Proof.
  intros H. rewrite <- (ascii_nat_embedding c) in *.
  pose proof (nat_ascii_bounded c) as Hb.
  pose proof (proj1 (forallb_forall _ _) digit_table (nat_of_ascii c)) as Hd.
  rewrite in_seq in Hd. specialize (Hd ltac:(lia)).
  unfold digit_ok in Hd. rewrite H in Hd. simpl in Hd.
  apply andb_true_iff in Hd as [Hd He]. apply andb_true_iff in Hd as [H1 H2].
  apply Ascii.eqb_eq in He. apply Z.leb_le in H1. apply Z.ltb_lt in H2. auto.
Qed.

Lemma hex_char_spec (d : Z) :
  0 <= d < 16 -> is_hex_digit (hex_char d) = true /\ hex_val (hex_char d) = d.
Proof.
  intros Hd.
  pose proof (proj1 (forallb_forall _ _) value_table (Z.to_nat d)) as Hv.
  rewrite in_seq in Hv. specialize (Hv ltac:(lia)).
  unfold value_ok in Hv. rewrite Z2Nat.id in Hv by lia.
  apply andb_true_iff in Hv as [H1 H2]. apply Z.eqb_eq in H2. auto.
Qed.

(** ** Arithmetic of the digit strings *)

Lemma pow16_S (k : nat) : 2 ^ (4 * Z.of_nat (S k)) = 2 ^ (4 * Z.of_nat k) * 16.
Proof.
  rewrite Nat2Z.inj_succ, Z.mul_succ_r, Z.pow_add_r by lia. reflexivity.
Qed.

Lemma pow16_pos (k : nat) : 0 < 2 ^ (4 * Z.of_nat k).
Proof. apply Z.pow_pos_nonneg; lia. Qed.

(** A digit of [n] is [(n / 16^j) mod 16]. *)
Lemma digit_div (n : Z) (j : nat) :
  Z.land (Z.shiftr n (4 * Z.of_nat j)) 15 = (n / 2 ^ (4 * Z.of_nat j)) mod 16.
Proof.
  rewrite Z.shiftr_div_pow2 by lia.
  change 15 with (Z.ones 4). rewrite Z.land_ones by lia. reflexivity.
Qed.

Lemma hex_value_acc (s : string) (a : Z) :
  hex_value s a = a * 2 ^ (4 * Z.of_nat (String.length s)) + hex_value s 0.
Proof.
  revert a. induction s as [|c s IH]; intros a; simpl; [lia|].
  rewrite (IH (a * 16 + _)), (IH (0 * 16 + _)), pow16_S. lia.
Qed.

Lemma hex_value_bound (s : string) :
  all_hex s = true -> 0 <= hex_value s 0 < 2 ^ (4 * Z.of_nat (String.length s)).
Proof.
  induction s as [|c s IH]; simpl; [lia|].
  intros [Hc Hs]%andb_true_iff.
  rewrite hex_value_acc, pow16_S. simpl.
  destruct (hex_val_spec c Hc) as [Hb _]. specialize (IH Hs).
  pose proof (pow16_pos (String.length s)). nia.
Qed.

Lemma hex_value_digits (k : nat) (n a : Z) :
  hex_value (hex_digits k n) a = a * 2 ^ (4 * Z.of_nat k) + n mod 2 ^ (4 * Z.of_nat k).
Proof.
  revert a. induction k as [|k IH]; intros a; simpl.
  - rewrite Z.mod_1_r. lia.
  - rewrite IH, digit_div.
    pose proof (pow16_pos k).
    destruct (hex_char_spec ((n / 2 ^ (4 * Z.of_nat k)) mod 16)) as [_ ->].
    { apply Z.mod_pos_bound. lia. }
    rewrite pow16_S, Z.rem_mul_r by lia. lia.
Qed.

Lemma length_hex_digits (k : nat) (n : Z) : String.length (hex_digits k n) = k.
Proof. induction k; simpl; congruence. Qed.

Lemma all_hex_digits (k : nat) (n : Z) : all_hex (hex_digits k n) = true.
Proof.
  induction k as [|k IH]; simpl; [done|].
  rewrite IH, digit_div, andb_true_r.
  apply hex_char_spec, Z.mod_pos_bound. lia.
Qed.

(** The digits below position [m] only see [n mod 16^m]. *)
Lemma hex_digits_mod (k m : nat) (n : Z) :
  (k <= m)%nat -> hex_digits k (n mod 2 ^ (4 * Z.of_nat m)) = hex_digits k n.
Proof.
  induction k as [|k IH]; intros Hk; simpl; [done|].
  rewrite IH by lia. f_equal. f_equal.
  apply Z.bits_inj'. intros i Hi.
  rewrite !Z.land_spec, !Z.shiftr_spec by lia.
  destruct (Z.lt_ge_cases i 4).
  - rewrite Z.mod_pow2_bits_low by lia. reflexivity.
  - change 15 with (Z.ones 4). rewrite Z.ones_spec_high by lia.
    rewrite !andb_false_r. reflexivity.
Qed.

(** ** The id format *)

Lemma isValid_length (s : string) : isValid s = true -> String.length s = 24%nat.
Proof. unfold isValid. intros [H _]%andb_true_iff. by apply Nat.eqb_eq. Qed.

Lemma isValid_all_hex (s : string) : isValid s = true -> all_hex s = true.
Proof. unfold isValid. by intros [_ H]%andb_true_iff. Qed.

(** A printed id is a valid id. *)
Lemma isValid_oid_to_hex (n : Z) : isValid (oid_to_hex n) = true.
Proof.
  unfold isValid, oid_to_hex. by rewrite length_hex_digits, all_hex_digits.
Qed.

(** C21: print then parse: an id below 2^96 is printed as 24 hex
    digits that [isValid] accepts and that are read back as the id. *)
Theorem oid_of_hex_to_hex (n : Z) :
  0 <= n < 2 ^ 96 -> isValid (oid_to_hex n) = true /\ oid_of_hex (oid_to_hex n) = Some n.
Proof.
  intros Hn. split; [apply isValid_oid_to_hex|].
  unfold oid_of_hex. rewrite isValid_oid_to_hex. f_equal.
  unfold oid_to_hex. rewrite hex_value_digits.
  change (4 * Z.of_nat 24) with 96. rewrite Z.mod_small by lia. lia.
Qed.

(** A parsed id is a 96-bit value. *)
Lemma oid_of_hex_bound (s : string) (n : Z) :
  oid_of_hex s = Some n -> 0 <= n < 2 ^ 96.
Proof.
  unfold oid_of_hex. destruct (isValid s) eqn:V; [|discriminate].
  intros [= <-]. pose proof (hex_value_bound s (isValid_all_hex s V)) as Hb.
  rewrite (isValid_length s V) in Hb. exact Hb.
Qed.

Lemma hex_digits_hex_value (s : string) :
  all_hex s = true -> hex_digits (String.length s) (hex_value s 0) = lower_string s.
Proof.
  induction s as [|c s IH]; simpl; [done|].
  intros [Hc Hs]%andb_true_iff.
  destruct (hex_val_spec c Hc) as [Hb Hch].
  pose proof (hex_value_bound s Hs) as Hw. pose proof (pow16_pos (String.length s)).
  rewrite hex_value_acc.
  replace (0 * 16 + hex_val c) with (hex_val c) by lia.
  set (w := hex_value s 0) in *. set (P := 2 ^ (4 * Z.of_nat (String.length s))) in *.
  f_equal.
  - rewrite digit_div. fold P.
    rewrite Z.div_add_l, (Z.div_small w), Z.add_0_r, Z.mod_small by lia. exact Hch.
  - rewrite <- (hex_digits_mod _ (String.length s)) by lia. fold P.
    rewrite Z.add_comm, Z.mod_add, Z.mod_small by lia. by apply IH.
Qed.

(** C22: parse then print: a valid id string is read as a 96-bit value
    printed back as the string in lower case, so the upper- and
    lower-case spellings of an id name the same post. *)
Theorem oid_to_hex_of_hex (s : string) (n : Z) :
  oid_of_hex s = Some n -> 0 <= n < 2 ^ 96 /\ oid_to_hex n = lower_string s.
Proof.
  intros E. split; [exact (oid_of_hex_bound s n E)|]. revert E.
  unfold oid_of_hex. destruct (isValid s) eqn:V; [|discriminate].
  intros [= <-]. unfold oid_to_hex.
  rewrite <- (isValid_length s V). apply hex_digits_hex_value, isValid_all_hex, V.
Qed.

(** ** The generator *)

Lemma get_inc_bound (g : oid_gen) : 0 <= fst (get_inc g) < inc_modulus.
Proof. unfold get_inc, inc_modulus. simpl. apply Z.mod_pos_bound. lia. Qed.

Lemma oid_bytes_testbit (time pu inc i : Z) :
  0 <= i ->
  Z.testbit (oid_bytes time pu inc) i =
  if i <? 24 then Z.testbit inc i
  else if i <? 64 then Z.testbit pu (i - 24)
  else if i <? 96 then Z.testbit time (i - 64) else false.
Proof.
  intros Hi. unfold oid_bytes.
  rewrite !Z.lor_spec, !Z.shiftl_spec, Z.land_spec by lia.
  change (2 ^ 24 - 1) with (Z.ones 24).
  destruct (Z.ltb_spec i 24); [|destruct (Z.ltb_spec i 64); [|destruct (Z.ltb_spec i 96)]].
  - rewrite Z.ones_spec_low by lia.
    rewrite !(Z.testbit_neg_r _ (i - _)) by lia. by rewrite andb_true_r.
  - rewrite Z.ones_spec_high, (Z.testbit_neg_r _ (i - 64)) by lia.
    rewrite Z.testbit_mod_pow2 by lia.
    replace (i - 24 <? 40) with true by (symmetry; apply Z.ltb_lt; lia).
    by rewrite andb_false_r, orb_false_r.
  - rewrite Z.ones_spec_high, !Z.testbit_mod_pow2 by lia.
    replace (i - 64 <? 32) with true by (symmetry; apply Z.ltb_lt; lia).
    replace (i - 24 <? 40) with false by (symmetry; apply Z.ltb_ge; lia).
    by rewrite andb_false_r, !orb_false_r.
  - rewrite Z.ones_spec_high, !Z.testbit_mod_pow2 by lia.
    replace (i - 64 <? 32) with false by (symmetry; apply Z.ltb_ge; lia).
    replace (i - 24 <? 40) with false by (symmetry; apply Z.ltb_ge; lia).
    by rewrite andb_false_r.
Qed.

Lemma oid_bytes_mod (time pu inc : Z) :
  oid_bytes time pu inc mod 2 ^ 96 = oid_bytes time pu inc.
Proof.
  apply Z.bits_inj'. intros i Hi.
  rewrite Z.testbit_mod_pow2, !oid_bytes_testbit by lia.
  destruct (Z.ltb_spec i 96); [by rewrite andb_true_l|].
  replace (i <? 24) with false by (symmetry; apply Z.ltb_ge; lia).
  by replace (i <? 64) with false by (symmetry; apply Z.ltb_ge; lia).
Qed.

(** Every generated id is a 96-bit value, so its printed form is read
    back as itself. *)
Theorem generate_bound (now : Z) (g : oid_gen) :
  0 <= fst (generate now g) < 2 ^ 96.
Proof.
  unfold generate. destruct (get_inc g) as [inc g']. simpl.
  rewrite <- oid_bytes_mod. apply Z.mod_pos_bound. lia.
Qed.

Lemma oid_counter_bytes (time pu inc : Z) :
  oid_counter (oid_bytes time pu inc) = inc mod 2 ^ 24.
Proof.
  unfold oid_counter. change (2 ^ 24 - 1) with (Z.ones 24).
  rewrite Z.land_ones by lia. apply Z.bits_inj'. intros i Hi.
  rewrite !Z.testbit_mod_pow2, oid_bytes_testbit by lia.
  by destruct (Z.ltb_spec i 24).
Qed.

Lemma oid_timestamp_bytes (time pu inc : Z) :
  oid_timestamp (oid_bytes time pu inc) = time mod 2 ^ 32.
Proof.
  unfold oid_timestamp. apply Z.bits_inj'. intros i Hi.
  rewrite Z.shiftr_spec, Z.testbit_mod_pow2, oid_bytes_testbit by lia.
  replace (i + 64 <? 24) with false by (symmetry; apply Z.ltb_ge; lia).
  replace (i + 64 <? 64) with false by (symmetry; apply Z.ltb_ge; lia).
  replace (i + 64 - 64) with i by lia.
  by destruct (Z.ltb_spec i 32); destruct (Z.ltb_spec (i + 64) 96); try lia.
Qed.

(** The fields of a generated id read back from its bits: the
    timestamp is the request time in seconds modulo 2^32 (the 4-byte
    field wraps in 2106) and the counter field the value [getInc]
    drew, [(index + 1) % 0xffffff]. *)
Theorem generate_fields (now : Z) (g : oid_gen) :
  oid_timestamp (fst (generate now g)) = (now / 1000) mod 2 ^ 32 /\
  oid_counter (fst (generate now g)) = (index g + 1) mod inc_modulus.
Proof.
  unfold generate, get_inc. simpl.
  rewrite oid_timestamp_bytes, oid_counter_bytes. split; [done|].
  apply Z.mod_small. pose proof (Z.mod_pos_bound (index g + 1) inc_modulus).
  unfold inc_modulus in *. lia.
Qed.

(** A run of [ObjectId.generate] calls, one per wall-clock time. *)
Fixpoint generate_seq (nows : list Z) (g : oid_gen) : list Z * oid_gen :=
  match nows with
  | [] => ([], g)
  | t :: ts =>
      let '(o, g1) := generate t g in
      let '(os, g2) := generate_seq ts g1 in
      (o :: os, g2)
  end.

Lemma generate_seq_counter (nows : list Z) (g : oid_gen) (j : nat) (o : Z) :
  fst (generate_seq nows g) !! j = Some o ->
  oid_counter o = (index g + Z.of_nat j + 1) mod inc_modulus.
Proof.
  revert g j. induction nows as [|t ts IH]; intros g j; simpl; [discriminate|].
  destruct (generate_seq ts _) as [os g2] eqn:Eg. simpl.
  destruct j as [|j]; simpl.
  - intros [= <-]. rewrite oid_counter_bytes. unfold get_inc. simpl.
    rewrite Z.mod_small; [f_equal; lia|].
    pose proof (Z.mod_pos_bound (index g + 1) inc_modulus). unfold inc_modulus in *. lia.
  - intros Hj. pose proof (IH (snd (get_inc g)) j) as IHj.
    simpl in IHj. rewrite Eg in IHj. specialize (IHj Hj). rewrite IHj. simpl.
    rewrite <- Z.add_assoc, Z.add_mod_idemp_l by (unfold inc_modulus; lia).
    f_equal. lia.
Qed.

Lemma mod_eq_small_diff (a j1 j2 m : Z) :
  0 < m -> 0 <= j1 < m -> 0 <= j2 < m ->
  (a + j1) mod m = (a + j2) mod m -> j1 = j2.
Proof.
  intros Hm H1 H2 Heq.
  pose proof (Z.div_mod (a + j1) m ltac:(lia)).
  pose proof (Z.div_mod (a + j2) m ltac:(lia)).
  assert (j1 - j2 = m * ((a + j1) / m - (a + j2) / m)) as Hd by lia.
  destruct (Z.lt_trichotomy ((a + j1) / m - (a + j2) / m) 0) as [Hq|[Hq|Hq]]; nia.
Qed.

(** Fewer than [0xffffff] consecutive generations never repeat an
    id, whatever the clock does in between (it may stand still or go
    back): their counter fields are pairwise distinct. *)
Theorem generate_seq_NoDup (nows : list Z) (g : oid_gen) :
  Z.of_nat (List.length nows) < inc_modulus -> NoDup (fst (generate_seq nows g)).
Proof.
  intros Hlen. apply NoDup_alt. intros j1 j2 o H1 H2.
  assert (List.length (fst (generate_seq nows g)) = List.length nows) as Hl.
  { clear. revert g. induction nows as [|t ts IH]; intros g; simpl; [done|].
    destruct (generate_seq ts _) as [os g2] eqn:E. simpl.
    specialize (IH (snd (get_inc g))). simpl in IH. rewrite E in IH. simpl in IH. by rewrite IH. }
  pose proof (lookup_lt_Some _ _ _ H1). pose proof (lookup_lt_Some _ _ _ H2).
  apply generate_seq_counter in H1, H2. rewrite H1 in H2.
  replace (index g + Z.of_nat j1 + 1) with ((index g + 1) + Z.of_nat j1) in H2 by lia.
  replace (index g + Z.of_nat j2 + 1) with ((index g + 1) + Z.of_nat j2) in H2 by lia.
  apply mod_eq_small_diff in H2; unfold inc_modulus in *; lia.
Qed.

(** ** Concrete runs *)

Lemma oid_of_hex_to_hex_witness :
  0 <= 255 < 2 ^ 96 /\ oid_to_hex 255 = "0000000000000000000000ff"%string /\
  oid_of_hex "0000000000000000000000ff" = Some 255.
Proof.
  assert (0 <= 255 < 2 ^ 96) as Hb by lia.
  split; [exact Hb|]. split; [reflexivity|].
  exact (proj2 (oid_of_hex_to_hex 255 Hb)).
Defined.

Lemma oid_to_hex_of_hex_witness :
  oid_of_hex "507F1F77BCF86CD799439011" = Some 24912482966938930280208240657 /\
  oid_to_hex 24912482966938930280208240657 = "507f1f77bcf86cd799439011"%string.
Proof.
  assert (oid_of_hex "507F1F77BCF86CD799439011" = Some 24912482966938930280208240657) as H
    by (vm_compute; reflexivity).
  split; [exact H|]. exact (proj2 (oid_to_hex_of_hex _ _ H)).
Defined.
