(* ===== verification/Schema.v ===== *)
(** * The [Blog] schema of [src/models/Blog.js]

    The schema declares three string paths: [title] (required, trimmed),
    [body] (required) and [author] (not required, trimmed, default
    ["Anonymous"]), with [timestamps: true] (Mongoose adds [createdAt]
    and [updatedAt]) and the collection name ["posts"].  A stored
    document also carries its [_id] and the version key [__v].

    What the schema means is what Mongoose does with it, so this file
    also holds the parts of Mongoose that the declarations switch on:
    the string cast [castString], the [trim] setter (which casts, then
    trims), the [required] validator of strings (a string of non-zero
    length), the default (applied when the value is [undefined] only),
    and the two validation passes the handlers trigger: [doc.save()] on
    a new document (every path) and [findByIdAndUpdate] with
    [runValidators: true] (the paths of the update only). *)

From stdpp Require Import base list.
From Stdlib Require Import ZArith String Ascii.
From S2P Require Import Prelude JsValue.

Local Open Scope blog_scope.

Local Open Scope string_scope.

(** ** Stored documents *)

(** A stored blog post. [author] is [None] when the stored value is
    [null] (an update can set it so); [title] and [body] are strings, as
    the [required] validators guarantee. Times are milliseconds. *)
Record Blog := mkBlog {
  _id : Z;
  title : string;
  body : string;
  author : option string;
  createdAt : Z;
  updatedAt : Z;
  __v : Z
}.

(** [default: 'Anonymous'] on [author]. *)
Definition author_default : string := "Anonymous".

(** ** Errors of the model layer *)

Inductive verr_kind := Required | CastFailed.

(** The errors Mongoose raises, as the handlers' [catch] sees them.
    [ValidationError] carries the model name ([Some "Blog"] from
    [doc.save()], [None] from update validators) and the failing paths in
    schema order. [ObjectIdCastError] is the failure to cast a query's id
    string to an ObjectId. [DriverError] is any failure of the database itself
    (lost connection, timeout), which the model does not produce but a
    store may. *)
Inductive merror :=
| ValidationError (model : option string) (errs : list (string * verr_kind))
| CastError (path : string)
| ObjectIdCastError (value : string)
| DuplicateKey (id : Z)
| DriverError (msg : string).

Definition quote (s : string) : string :=
  String "034"%char EmptyString ++ s ++ String "034"%char EmptyString.

Definition backquote (s : string) : string :=
  String "096"%char EmptyString ++ s ++ String "096"%char EmptyString.

Definition verr_message (path : string) (k : verr_kind) : string :=
  match k with
  | Required => "Path " ++ backquote path ++ " is required."
  | CastFailed => "Cast to string failed at path " ++ quote path
  end.

Fixpoint join_errors (errs : list (string * verr_kind)) : string :=
  match errs with
  | [] => ""
  | [(p, k)] => p ++ ": " ++ verr_message p k
  | (p, k) :: rest => p ++ ": " ++ verr_message p k ++ ", " ++ join_errors rest
  end.

(** [err.message], which the handlers copy into the 500 envelope. *)
Definition merror_message (e : merror) : string :=
  match e with
  | ValidationError (Some m) errs => m ++ " validation failed: " ++ join_errors errs
  | ValidationError None errs => "Validation failed: " ++ join_errors errs
  | CastError p => verr_message p CastFailed
  | ObjectIdCastError v =>
      "Cast to ObjectId failed for value " ++ quote v ++ " (type string) at path "
        ++ quote "_id" ++ " for model " ++ quote "Blog"
  | DuplicateKey _ => "E11000 duplicate key error collection: posts index: _id_"
  | DriverError msg => msg
  end.

(** ** Casting and setters *)

(** Mongoose's [castString] on a value: [null]/[undefined] stay
    nullish ([Some None]); an object whose [_id] is a non-empty string
    casts to that string; a value with its own [toString] (a boolean, a
    number, a string) casts to it; an array or plain object is a cast
    error ([None]). *)
Definition cast_string (v : jval) : option (option string) :=
  match v with
  | JUndef | JNull => Some None
  | JBool b => Some (Some (bool_to_string b))
  | JNum n => Some (Some (number_to_string n))
  | JStr s => Some (Some s)
  | JArr _ => None
  | JObj _ =>
      match prop v "_id" with
      | JStr s => if is_empty s then None else Some (Some s)
      | _ => None
      end
  end.

(** The value a path holds after assignment. *)
Inductive path_val := PUnset | PNull | PStr (s : string) | PCastErr.

(** Assigning [v] to a string path: [undefined] leaves the path unset,
    otherwise the value is cast and, on a [trim: true] path, trimmed by
    the setter ([if (v) return v.trim()]). *)
Definition set_path (trim : bool) (v : jval) : path_val :=
  match v with
  | JUndef => PUnset
  | _ =>
      match cast_string v with
      | None => PCastErr
      | Some None => PNull
      | Some (Some s) => PStr (if trim then js_trim s else s)
      end
  end.

(** ** A new document: [new Blog({ title, body, author })] *)

(** The three paths of the document under construction; a default has
    already been applied to [author]. *)
Record draft := mk_draft {
  d_title : path_val;
  d_body : path_val;
  d_author : path_val
}.

(** Construction: the values pass through the schema's setters, and
    [author] takes its default when it is unset. *)
Definition make_draft (t b a : jval) : draft :=
  {| d_title := set_path true t;
     d_body := set_path false b;
     d_author :=
       match set_path true a with
       | PUnset => PStr author_default
       | p => p
       end |}.

Definition errs := list (string * verr_kind).

(** The [required] validator of a string path: the value must be a
    string of non-zero length. A cast error is reported instead of the
    validators of its path. *)
Definition check_required (path : string) (v : path_val) : result string errs :=
  match v with
  | PStr s => if is_empty s then Err [(path, Required)] else Ok s
  | PCastErr => Err [(path, CastFailed)]
  | PUnset | PNull => Err [(path, Required)]
  end.

(** A path with no validator: only a cast error fails it. *)
Definition check_optional (path : string) (v : path_val) : result (option string) errs :=
  match v with
  | PStr s => Ok (Some s)
  | PCastErr => Err [(path, CastFailed)]
  | PUnset | PNull => Ok None
  end.

(** Validation runs every path and collects every failure. *)
Definition both {A B : Type} (r1 : result A errs) (r2 : result B errs) : result (A * B) errs :=
  match r1, r2 with
  | Ok a, Ok b => Ok (a, b)
  | Err e1, Err e2 => Err (app e1 e2)
  | Err e, Ok _ | Ok _, Err e => Err e
  end.

(** [doc.validate()] before a save, then the document that is written:
    [createdAt] and [updatedAt] are both the save time, [__v] is 0. *)
Definition validate_new (id now : Z) (d : draft) : result Blog merror :=
  match both (check_required "title" (d_title d))
             (both (check_required "body" (d_body d))
                   (check_optional "author" (d_author d))) with
  | Ok (t, (b, a)) => Ok (mkBlog id t b a now now 0)
  | Err es => Err (ValidationError (Some "Blog") es)
  end.

(** ** An update: [findByIdAndUpdate(id, { title, body, author },
       { new: true, runValidators: true })] *)

(** The [$set] of a cast update: [None] for a key whose value was
    [undefined] (Mongoose strips it), [Some None] for [null]. *)
Record update_set := mk_update {
  u_title : option (option string);
  u_body : option (option string);
  u_author : option (option string)
}.

(** Casting one key of the update: a cast error aborts the query with a
    [CastError] for that path. *)
Definition cast_update_path (path : string) (trim : bool) (v : jval)
  : result (option (option string)) merror :=
  match set_path trim v with
  | PUnset => Ok None
  | PNull => Ok (Some None)
  | PStr s => Ok (Some (Some s))
  | PCastErr => Err (CastError path)
  end.

Definition cast_update (t b a : jval) : result update_set merror :=
  let? ut := cast_update_path "title" true t in
  let? ub := cast_update_path "body" false b in
  let? ua := cast_update_path "author" true a in
  Ok (mk_update ut ub ua).

(** An update after its validators: what is written to each path. *)
Record checked_update := mk_checked {
  c_title : option string;
  c_body : option string;
  c_author : option (option string)
}.

(** Update validators run on the paths the update sets: [required] on
    [title] and [body]. *)
Definition check_update_required (path : string) (v : option (option string))
  : result (option string) errs :=
  match v with
  | None => Ok None
  | Some None => Err [(path, Required)]
  | Some (Some s) => if is_empty s then Err [(path, Required)] else Ok (Some s)
  end.

Definition validate_update (u : update_set) : result checked_update merror :=
  match both (check_update_required "title" (u_title u))
             (check_update_required "body" (u_body u)) with
  | Ok (t, b) => Ok (mk_checked t b (u_author u))
  | Err es => Err (ValidationError None es)
  end.

(** Applying the [$set] to the stored document; [timestamps] adds
    [updatedAt: now]; [_id], [createdAt] and [__v] are untouched. *)
Definition apply_update (now : Z) (c : checked_update) (d : Blog) : Blog :=
  {| _id := _id d;
     title := default (title d) (c_title c);
     body := default (body d) (c_body c);
     author := default (author d) (c_author c);
     createdAt := createdAt d;
     updatedAt := now;
     __v := __v d |}.

(** ** Well-formed documents *)

(** The schema's invariant of a stored document: [title] and [body] are
    non-empty strings. *)
Definition blog_wf (d : Blog) : bool :=
  negb (is_empty (title d)) && negb (is_empty (body d)).

(** ** Lemmas *)

Lemma set_path_str (tr : bool) (s : string) :
  set_path tr (JStr s) = PStr (if tr then js_trim s else s).
Proof. reflexivity. Qed.

Lemma both_Ok {A B : Type} (r1 : result A errs) (r2 : result B errs) a b :
  both r1 r2 = Ok (a, b) <-> r1 = Ok a /\ r2 = Ok b.
Proof.
  destruct r1, r2; simpl; split; try discriminate; try naive_solver.
Qed.

Lemma check_required_Ok (p : string) (v : path_val) (s : string) :
  check_required p v = Ok s <-> v = PStr s /\ is_empty s = false.
Proof.
  destruct v as [| |s'|]; simpl; split; try discriminate;
    try (intros [? ?]; discriminate).
  - destruct (is_empty s') eqn:E; [discriminate|]. intros [= <-]. auto.
  - intros [[= <-] H]. by rewrite H.
Qed.

#[export] Hint Rewrite set_path_str : blog_rw.

(** What [doc.save()] validates and writes: a new document is accepted
    exactly when its title and body hold non-empty strings and its
    author is not a cast error, and it is then written with the given
    id, both timestamps equal to the save time, and version 0. *)
Lemma validate_new_Ok (id now : Z) (d : draft) (doc : Blog) :
  validate_new id now d = Ok doc <->
  exists t b a,
    check_required "title" (d_title d) = Ok t /\
    check_required "body" (d_body d) = Ok b /\
    check_optional "author" (d_author d) = Ok a /\
    doc = mkBlog id t b a now now 0.
Proof.
  unfold validate_new.
  destruct (both _ (both _ _)) as [[t [b a]]|es] eqn:E.
  - apply both_Ok in E as [Et E']. apply both_Ok in E' as [Eb Ea].
    split; [intros [= <-]; eauto 10|].
    intros (t' & b' & a' & Et' & Eb' & Ea' & ->). congruence.
  - split; [discriminate|].
    intros (t' & b' & a' & Et' & Eb' & Ea' & ->).
    rewrite Et', Eb', Ea' in E. discriminate.
Qed.

(** The outcome of validation does not depend on the id the document
    was given, only on its paths. *)
Lemma validate_new_err_indep (id id' now : Z) (d : draft) (e : merror) :
  validate_new id now d = Err e -> validate_new id' now d = Err e.
Proof. unfold validate_new. by destruct (both _ _) as [[? [? ?]]|]. Qed.

Lemma validate_new_fields (id now : Z) (d : draft) (doc : Blog) :
  validate_new id now d = Ok doc ->
  _id doc = id /\ createdAt doc = now /\ updatedAt doc = now /\ __v doc = 0%Z.
Proof. by intros (t & b & a & _ & _ & _ & ->)%validate_new_Ok. Qed.

Lemma validate_new_wf (id now : Z) (d : draft) (doc : Blog) :
  validate_new id now d = Ok doc -> blog_wf doc = true.
Proof.
  intros (t & b & a & Et & Eb & _ & ->)%validate_new_Ok.
  apply check_required_Ok in Et as [_ Ht]. apply check_required_Ok in Eb as [_ Hb].
  unfold blog_wf. simpl. by rewrite Ht, Hb.
Qed.

Lemma check_update_required_nonempty (p : string) v r :
  check_update_required p v = Ok r -> forall s, r = Some s -> is_empty s = false.
Proof.
  destruct v as [[s'|]|]; simpl; try discriminate; [|by intros [= <-]].
  destruct (is_empty s') eqn:E; [discriminate|]. intros [= <-] s [= <-]. exact E.
Qed.

(** An update that passed its validators keeps a document well formed. *)
Lemma apply_update_wf (now : Z) (u : update_set) (c : checked_update) (d : Blog) :
  validate_update u = Ok c -> blog_wf d = true -> blog_wf (apply_update now c d) = true.
Proof.
  unfold validate_update. destruct (both _ _) as [[t b]|es] eqn:E; [|discriminate].
  intros [= <-]. apply both_Ok in E as [Et Eb].
  unfold blog_wf, apply_update. simpl. intros [Ht Hb]%andb_true_iff.
  apply andb_true_iff. split.
  - destruct t as [s|]; simpl; [|exact Ht].
    by rewrite (check_update_required_nonempty _ _ _ Et s eq_refl).
  - destruct b as [s|]; simpl; [|exact Hb].
    by rewrite (check_update_required_nonempty _ _ _ Eb s eq_refl).
Qed.

Lemma apply_update_keeps (now : Z) (c : checked_update) (d : Blog) :
  _id (apply_update now c d) = _id d /\
  createdAt (apply_update now c d) = createdAt d /\
  updatedAt (apply_update now c d) = now.
Proof. done. Qed.

#[export] Hint Resolve validate_new_wf apply_update_wf : blog.

(** [doc.save()] validation on string values, in closed form: the
    title is trimmed before the [required] check, the body is not, and
    both failures are reported together. *)
Lemma validate_new_str (id now : Z) (t b a : string) :
  validate_new id now (make_draft (JStr t) (JStr b) (JStr a)) =
  match is_empty (js_trim t), is_empty b with
  | false, false => Ok (mkBlog id (js_trim t) b (Some (js_trim a)) now now 0)
  | true, false => Err (ValidationError (Some "Blog") [("title", Required)])
  | false, true => Err (ValidationError (Some "Blog") [("body", Required)])
  | true, true => Err (ValidationError (Some "Blog") [("title", Required); ("body", Required)])
  end.
Proof.
  unfold validate_new, make_draft. simpl.
  by destruct (is_empty (js_trim t)), (is_empty b).
Qed.
