(* ===== verification/Store.v ===== *)
(** * The persistence interface: what the handlers ask of the [Blog] model

    [index.js] calls five operations of the Mongoose model [Blog]:
    [new Blog({...}).save()], [Blog.find().sort({ createdAt: -1 })],
    [Blog.findById(id)], [Blog.findByIdAndUpdate(id, {...}, { new: true,
    runValidators: true })] and [Blog.findByIdAndDelete(id)].  The class
    [BlogModel] is that interface: the handlers of [Handlers] are written
    against it and their status-mapping theorems hold for every instance,
    including one whose calls fail with a driver error.

    The class [BlogModelLaws] is the contract of a working store, stated
    on an abstract view of its state, a finite map from ids to documents
    ([contents]), under an invariant ([model_inv]) that every operation
    preserves.  It is the abstract specification of the persistence
    adapter: the concrete collection of [Collection] discharges it, and
    the read-after-write theorems of [Handlers] and [System] are proved
    from it alone. *)

From stdpp Require Import base list gmap.
From Stdlib Require Import ZArith String Sorted.
From S2P Require Import Prelude JsValue ObjectId Schema.

Local Open Scope blog_scope.

Local Open Scope Z_scope.

(** Newest first: the order of [sort({ createdAt: -1 })]. *)
Definition newer_first (a b : Blog) : Prop := createdAt b <= createdAt a.

(** The outcome [findByIdAndUpdate] promises, given the document the id
    names (if any): the update is cast, then validated, and only then
    applied to the document, which is returned in its new state. *)
Definition update_outcome (now : Z) (t b a : jval) (cur : option Blog)
  : result (option Blog) merror :=
  let? u := cast_update t b a in
  let? c := validate_update u in
  Ok (apply_update now c <$> cur).

(** The map after an update with that outcome. *)
Definition update_contents (k : Z) (r : result (option Blog) merror)
  (m : gmap Z Blog) : gmap Z Blog :=
  match r with
  | Ok (Some d') => <[k := d']> m
  | _ => m
  end.

Class BlogModel (S : Type) := {
  Blog_save : Z -> jval -> jval -> jval -> S -> result Blog merror * S;
  Blog_find : S -> result (list Blog) merror;
  Blog_findById : string -> S -> result (option Blog) merror;
  Blog_findByIdAndUpdate :
    Z -> string -> jval -> jval -> jval -> S -> result (option Blog) merror * S;
  Blog_findByIdAndDelete : string -> S -> result (option Blog) merror * S
}.

Class BlogModelLaws (S : Type) `{BlogModel S} := {
  model_inv : S -> Prop;
  contents : S -> gmap Z Blog;

  (** every stored document is well formed and filed under its id *)
  contents_wf st k d :
    model_inv st -> contents st !! k = Some d -> blog_wf d = true /\ _id d = k;

  (** [save]: a validation failure is reported as such; a success
      writes the validated document under a fresh 96-bit id; a failure
      writes nothing *)
  save_invalid now t b a st id e :
    model_inv st -> validate_new id now (make_draft t b a) = Err e ->
    fst (Blog_save now t b a st) = Err e;
  save_ok now t b a st doc st' :
    model_inv st -> Blog_save now t b a st = (Ok doc, st') ->
    validate_new (_id doc) now (make_draft t b a) = Ok doc /\
    0 <= _id doc < 2 ^ 96 /\
    contents st !! _id doc = None /\
    contents st' = <[_id doc := doc]> (contents st);
  save_err now t b a st e st' :
    model_inv st -> Blog_save now t b a st = (Err e, st') -> contents st' = contents st;
  save_inv now t b a st :
    model_inv st -> model_inv (snd (Blog_save now t b a st));

  (** [find().sort({ createdAt: -1 })]: every document once, newest first *)
  find_spec st :
    model_inv st ->
    exists l, Blog_find st = Ok l /\
      l ≡ₚ (map_to_list (contents st)).*2 /\ Sorted newer_first l;

  (** [findById] on a well-formed id *)
  findById_spec st s k :
    model_inv st -> oid_of_hex s = Some k -> Blog_findById s st = Ok (contents st !! k);

  (** [findByIdAndUpdate] on a well-formed id *)
  update_spec now s t b a st k :
    model_inv st -> oid_of_hex s = Some k ->
    fst (Blog_findByIdAndUpdate now s t b a st) = update_outcome now t b a (contents st !! k) /\
    contents (snd (Blog_findByIdAndUpdate now s t b a st)) =
      update_contents k (update_outcome now t b a (contents st !! k)) (contents st);
  update_inv now s t b a st :
    model_inv st -> model_inv (snd (Blog_findByIdAndUpdate now s t b a st));

  (** [findByIdAndDelete] on a well-formed id: the snapshot, then gone *)
  delete_spec st s k :
    model_inv st -> oid_of_hex s = Some k ->
    fst (Blog_findByIdAndDelete s st) = Ok (contents st !! k) /\
    contents (snd (Blog_findByIdAndDelete s st)) = delete k (contents st);
  delete_inv s st :
    model_inv st -> model_inv (snd (Blog_findByIdAndDelete s st))
}.

Arguments model_inv {S _ _} _.
Arguments contents {S _ _} _.
