(* ===== verification/Collection.v ===== *)
(** * The concrete store: the [posts] collection behind the [Blog] model

    The collection is the list of its documents in natural (insertion)
    order, together with the process state of the ObjectId generator.
    Each operation follows what Mongoose and MongoDB do for the call in
    [index.js]:
    - [coll_save]: [new Blog({...})] assigns a fresh [_id] (the generator
      advances even if the save later fails), casts and sets the paths;
      [save()] validates, then inserts, and the unique index on [_id]
      rejects a duplicate;
    - [coll_find]: every document, sorted by [createdAt] descending (the
      order of documents with equal [createdAt] is not specified by
      MongoDB; this model keeps the later-inserted first);
    - [coll_findById], [coll_update], [coll_delete]: the id string is
      cast to an ObjectId first (a malformed one throws), then the
      document with that [_id] is read, updated in place, or removed.

    The instance [Collection_model] implements [BlogModel] with these,
    and [Collection_laws] proves that they satisfy [BlogModelLaws]
    under the invariant [coll_inv]: unique ids, well-formed documents,
    96-bit ids.  This is the refinement of the abstract store by the
    concrete one.  [save_seq] runs creates one after the other; the ids
    they draw are shown not to collide on the unique index while the
    counter does not wrap. *)

From stdpp Require Import base list gmap sorting.
From Stdlib Require Import ZArith String Sorted Lia.
From S2P Require Import Prelude JsValue ObjectId Schema Store.

Local Open Scope Z_scope.

Record Collection := mkCollection {
  docs : list Blog;
  gen : oid_gen
}.

(** The document with a given [_id], if any. *)
Definition find_doc (k : Z) (ds : list Blog) : option Blog :=
  List.find (fun d => Z.eqb (_id d) k) ds.

(** ** Operations *)

Definition coll_save (now : Z) (t b a : jval) (c : Collection)
  : result Blog merror * Collection :=
  let '(id, g') := generate now (gen c) in
  match validate_new id now (make_draft t b a) with
  | Err e => (Err e, mkCollection (docs c) g')
  | Ok doc =>
      match find_doc id (docs c) with
      | Some _ => (Err (DuplicateKey id), mkCollection (docs c) g')
      | None => (Ok doc, mkCollection (docs c ++ [doc]) g')
      end
  end.

(** Insertion keeping the list newest first. *)
Fixpoint insert_newest (d : Blog) (l : list Blog) : list Blog :=
  match l with
  | [] => [d]
  | x :: xs => if Z.leb (createdAt x) (createdAt d) then d :: x :: xs else x :: insert_newest d xs
  end.

Definition sort_newest (l : list Blog) : list Blog := foldr insert_newest [] l.

Definition coll_find (c : Collection) : result (list Blog) merror :=
  Ok (sort_newest (docs c)).

Definition coll_findById (s : string) (c : Collection) : result (option Blog) merror :=
  match oid_of_hex s with
  | None => Err (ObjectIdCastError s)
  | Some k => Ok (find_doc k (docs c))
  end.

(** Every document with id [k] replaced by [d']. *)
Definition replace_doc (k : Z) (d' : Blog) (ds : list Blog) : list Blog :=
  map (fun x => if Z.eqb (_id x) k then d' else x) ds.

Definition remove_doc (k : Z) (ds : list Blog) : list Blog :=
  List.filter (fun x => negb (Z.eqb (_id x) k)) ds.

Definition coll_update (now : Z) (s : string) (t b a : jval) (c : Collection)
  : result (option Blog) merror * Collection :=
  match oid_of_hex s with
  | None => (Err (ObjectIdCastError s), c)
  | Some k =>
      match cast_update t b a with
      | Err e => (Err e, c)
      | Ok u =>
          match validate_update u with
          | Err e => (Err e, c)
          | Ok cu =>
              match find_doc k (docs c) with
              | None => (Ok None, c)
              | Some d =>
                  let d' := apply_update now cu d in
                  (Ok (Some d'), mkCollection (replace_doc k d' (docs c)) (gen c))
              end
          end
      end
  end.

Definition coll_delete (s : string) (c : Collection)
  : result (option Blog) merror * Collection :=
  match oid_of_hex s with
  | None => (Err (ObjectIdCastError s), c)
  | Some k =>
      match find_doc k (docs c) with
      | None => (Ok None, c)
      | Some d => (Ok (Some d), mkCollection (remove_doc k (docs c)) (gen c))
      end
  end.

#[export] Instance Collection_model : BlogModel Collection := {
  Blog_save := coll_save;
  Blog_find := coll_find;
  Blog_findById := coll_findById;
  Blog_findByIdAndUpdate := coll_update;
  Blog_findByIdAndDelete := coll_delete
}.

(** ** Abstraction and invariant *)

Definition coll_contents (c : Collection) : gmap Z Blog :=
  list_to_map (map (fun d => (_id d, d)) (docs c)).

Definition doc_ok (d : Blog) : Prop := blog_wf d = true /\ 0 <= _id d < 2 ^ 96.

Definition coll_inv (c : Collection) : Prop :=
  NoDup (map _id (docs c)) /\ Forall doc_ok (docs c).

(** The empty collection a fresh process starts with. *)
Definition empty_collection (g : oid_gen) : Collection := mkCollection [] g.

(** ** Lookups in the document list *)

Lemma find_doc_Some (k : Z) (ds : list Blog) (d : Blog) :
  find_doc k ds = Some d -> _id d = k /\ In d ds.
Proof.
  unfold find_doc. intros [Hin Hk]%find_some. split; [|exact Hin]. by apply Z.eqb_eq.
Qed.

Lemma find_doc_None (k : Z) (ds : list Blog) :
  find_doc k ds = None <-> ~ In k (map _id ds).
Proof.
  induction ds as [|x ds IH]; simpl; [tauto|].
  destruct (Z.eqb_spec (_id x) k); simpl; [split; [discriminate|tauto]|].
  rewrite IH. intuition.
Qed.

(** The abstract view reads the first document with the id. *)
Lemma lookup_contents (ds : list Blog) (k : Z) :
  (list_to_map (map (fun d => (_id d, d)) ds) : gmap Z Blog) !! k = find_doc k ds.
Proof.
  induction ds as [|x ds IH]; simpl; [apply lookup_empty|].
  unfold find_doc in *. simpl.
  destruct (Z.eqb_spec (_id x) k) as [<-|Hne].
  - apply lookup_insert_eq.
  - rewrite lookup_insert_ne by done. exact IH.
Qed.

Lemma coll_contents_lookup (c : Collection) (k : Z) :
  coll_contents c !! k = find_doc k (docs c).
Proof. apply lookup_contents. Qed.

Lemma find_doc_app (j : Z) (ds : list Blog) (doc : Blog) :
  find_doc j (ds ++ [doc]) =
  match find_doc j ds with
  | Some d => Some d
  | None => if Z.eqb (_id doc) j then Some doc else None
  end.
Proof.
  induction ds as [|x ds IH]; unfold find_doc in *; simpl; [done|].
  by destruct (Z.eqb (_id x) j).
Qed.

Lemma find_doc_replace (j k : Z) (d' : Blog) (ds : list Blog) :
  _id d' = k ->
  find_doc j (replace_doc k d' ds) =
  if Z.eqb j k then (fun _ => d') <$> find_doc k ds else find_doc j ds.
Proof.
  intros Hk. induction ds as [|x ds IH]; unfold find_doc, replace_doc in *; simpl.
  { by destruct (Z.eqb j k). }
  rewrite IH.
  destruct (Z.eqb_spec (_id x) k) as [Ex|Ex]; simpl; rewrite ?Hk, ?Ex.
  - destruct (Z.eqb_spec k j), (Z.eqb_spec j k); try lia; by rewrite ?Z.eqb_refl.
  - destruct (Z.eqb_spec j k) as [->|Hjk]; [|done].
    by replace (Z.eqb (_id x) k) with false by (symmetry; by apply Z.eqb_neq).
Qed.

Lemma find_doc_remove (j k : Z) (ds : list Blog) :
  find_doc j (remove_doc k ds) = if Z.eqb j k then None else find_doc j ds.
Proof.
  induction ds as [|x ds IH]; unfold find_doc, remove_doc in *; simpl.
  { by destruct (Z.eqb j k). }
  destruct (Z.eqb_spec (_id x) k) as [Ex|Ex]; simpl.
  - rewrite IH. destruct (Z.eqb_spec j k); [done|].
    replace (Z.eqb (_id x) j) with false by (symmetry; apply Z.eqb_neq; lia). done.
  - destruct (Z.eqb_spec (_id x) j) as [Ej|Ej].
    + destruct (Z.eqb_spec j k); [lia|done].
    + exact IH.
Qed.

(** ** Sorting *)

Lemma insert_newest_perm (d : Blog) (l : list Blog) : insert_newest d l ≡ₚ d :: l.
Proof.
  induction l as [|x l IH]; simpl; [done|].
  destruct (Z.leb _ _); [done|]. rewrite IH. constructor.
Qed.

Lemma sort_newest_perm (l : list Blog) : sort_newest l ≡ₚ l.
Proof.
  induction l as [|x l IH]; simpl; [done|].
  rewrite insert_newest_perm. by rewrite IH.
Qed.

Lemma insert_newest_sorted (d : Blog) (l : list Blog) :
  Sorted newer_first l -> Sorted newer_first (insert_newest d l).
Proof.
  induction 1 as [|x l Hl IH Hhd]; simpl; [repeat constructor|].
  unfold newer_first in *.
  destruct (Z.leb_spec (createdAt x) (createdAt d)).
  - repeat constructor; auto.
  - constructor; [exact IH|].
    destruct l as [|y l]; simpl; [constructor; lia|].
    inversion Hhd; subst.
    destruct (Z.leb _ _); constructor; lia.
Qed.

Lemma sort_newest_sorted (l : list Blog) : Sorted newer_first (sort_newest l).
Proof.
  induction l as [|x l IH]; simpl; [constructor|]. by apply insert_newest_sorted.
Qed.

(** ** The abstract view of each operation *)

Lemma contents_snoc (ds : list Blog) (doc : Blog) :
  find_doc (_id doc) ds = None ->
  (list_to_map (map (fun d => (_id d, d)) (ds ++ [doc])) : gmap Z Blog) =
  <[_id doc := doc]> (list_to_map (map (fun d => (_id d, d)) ds)).
Proof.
  intros Hf. apply map_eq. intros j.
  rewrite !lookup_contents, find_doc_app, lookup_insert.
  destruct (Z.eqb_spec (_id doc) j) as [<-|Hne].
  - rewrite Hf. by rewrite decide_True.
  - rewrite decide_False by done. rewrite lookup_contents. by destruct (find_doc j ds).
Qed.

Lemma contents_replace (ds : list Blog) (k : Z) (d d' : Blog) :
  find_doc k ds = Some d -> _id d' = k ->
  (list_to_map (map (fun x => (_id x, x)) (replace_doc k d' ds)) : gmap Z Blog) =
  <[k := d']> (list_to_map (map (fun x => (_id x, x)) ds)).
Proof.
  intros Hf Hk. apply map_eq. intros j.
  rewrite lookup_contents, find_doc_replace by exact Hk. rewrite lookup_insert.
  destruct (Z.eqb_spec j k) as [->|Hne].
  - rewrite Hf, decide_True by done. reflexivity.
  - rewrite decide_False by congruence. by rewrite lookup_contents.
Qed.

Lemma contents_remove (ds : list Blog) (k : Z) :
  (list_to_map (map (fun x => (_id x, x)) (remove_doc k ds)) : gmap Z Blog) =
  delete k (list_to_map (map (fun x => (_id x, x)) ds)).
Proof.
  apply map_eq. intros j.
  rewrite lookup_contents, find_doc_remove, lookup_delete.
  destruct (Z.eqb_spec j k) as [->|Hne].
  - by rewrite decide_True.
  - rewrite decide_False by congruence. by rewrite lookup_contents.
Qed.

Lemma map_id_replace (k : Z) (d' : Blog) (ds : list Blog) :
  _id d' = k -> map _id (replace_doc k d' ds) = map _id ds.
Proof.
  intros Hk. induction ds as [|x ds IH]; simpl; [done|].
  rewrite IH. destruct (Z.eqb_spec (_id x) k); congruence.
Qed.

Lemma Forall_replace (P : Blog -> Prop) (k : Z) (d' : Blog) (ds : list Blog) :
  P d' -> Forall P ds -> Forall P (replace_doc k d' ds).
Proof.
  intros Hd. induction 1; simpl; constructor; auto. by destruct (Z.eqb _ _).
Qed.

Lemma coll_inv_doc (c : Collection) (k : Z) (d : Blog) :
  coll_inv c -> find_doc k (docs c) = Some d -> doc_ok d /\ _id d = k.
Proof.
  intros [_ Hall] Hf. apply find_doc_Some in Hf as [Hk Hin].
  split; [|exact Hk]. rewrite Forall_forall in Hall. by apply Hall, list_elem_of_In.
Qed.

#[export] Hint Resolve sort_newest_sorted sort_newest_perm Forall_replace : blog.

(** ** The laws, one operation at a time *)

Section Laws.
Context (now : Z) (t b a : jval) (c : Collection).

Lemma coll_save_invalid (id : Z) (e : merror) :
  validate_new id now (make_draft t b a) = Err e -> fst (coll_save now t b a c) = Err e.
Proof.
  intros He. unfold coll_save. destruct (generate now (gen c)) as [id' g'].
  by rewrite (validate_new_err_indep id id' now _ e He).
Qed.

(** What a successful save did: the document has the generated id,
    passed validation, and is appended to the list. *)
Lemma coll_save_Ok_inv (doc : Blog) (c' : Collection) :
  coll_save now t b a c = (Ok doc, c') ->
  validate_new (_id doc) now (make_draft t b a) = Ok doc /\
  _id doc = fst (generate now (gen c)) /\
  find_doc (_id doc) (docs c) = None /\
  docs c' = docs c ++ [doc].
Proof.
  unfold coll_save. destruct (generate now (gen c)) as [id g'] eqn:G.
  destruct (validate_new id now _) as [d|e] eqn:V; [|discriminate].
  destruct (find_doc id (docs c)) eqn:F; [discriminate|].
  intros [= <- <-]. destruct (validate_new_fields _ _ _ _ V) as [Hid _].
  rewrite Hid. auto.
Qed.

Lemma coll_save_Err_docs (e : merror) (c' : Collection) :
  coll_save now t b a c = (Err e, c') -> docs c' = docs c.
Proof.
  unfold coll_save. destruct (generate now (gen c)) as [id g'].
  destruct (validate_new id now _); [destruct (find_doc _ _)|]; by intros [= _ <-].
Qed.

Lemma coll_save_docs :
  docs (snd (coll_save now t b a c)) = docs c \/
  exists doc, coll_save now t b a c = (Ok doc, snd (coll_save now t b a c)).
Proof.
  destruct (coll_save now t b a c) as [[doc|e] c'] eqn:E; simpl; [eauto|].
  left. by apply coll_save_Err_docs in E.
Qed.

Lemma coll_save_inv : coll_inv c -> coll_inv (snd (coll_save now t b a c)).
Proof.
  intros [Hnd Hall].
  destruct (coll_save now t b a c) as [[doc|e] c'] eqn:E; simpl.
  - apply coll_save_Ok_inv in E as (V & Hid & F & Hd).
    unfold coll_inv. rewrite Hd. split.
    + rewrite map_app. apply NoDup_app. split; [exact Hnd|]. split; [|apply NoDup_singleton].
      intros x Hx Hx'. apply list_elem_of_In in Hx, Hx'. simpl in Hx'.
      destruct Hx' as [<-|[]]. by apply find_doc_None in F.
    + apply Forall_app. split; [exact Hall|]. constructor; [|constructor]. split.
      * by apply validate_new_wf in V.
      * rewrite Hid. apply generate_bound.
  - apply coll_save_Err_docs in E. unfold coll_inv. by rewrite E.
Qed.
End Laws.

Lemma coll_find_spec (c : Collection) :
  coll_inv c ->
  exists l, coll_find c = Ok l /\
    l ≡ₚ (map_to_list (coll_contents c)).*2 /\ Sorted newer_first l.
Proof.
  intros [Hnd _]. exists (sort_newest (docs c)). split; [done|]. split; [|apply sort_newest_sorted].
  rewrite sort_newest_perm. unfold coll_contents.
  rewrite map_to_list_to_map.
  - change (map (fun d => (_id d, d)) (docs c)) with ((fun d => (_id d, d)) <$> docs c).
    rewrite <- list_fmap_compose.
    enough (Heq : (snd ∘ (fun d => (_id d, d))) <$> docs c = docs c) by (rewrite Heq; done).
    clear. induction (docs c) as [|x l IH]; simpl; [done|]. f_equal. exact IH.
  - change (map (fun d => (_id d, d)) (docs c)) with ((fun d => (_id d, d)) <$> docs c).
    rewrite <- list_fmap_compose. exact Hnd.
Qed.

Lemma coll_update_spec (now : Z) (s : string) (t b a : jval) (c : Collection) (k : Z) :
  coll_inv c -> oid_of_hex s = Some k ->
  fst (coll_update now s t b a c) = update_outcome now t b a (coll_contents c !! k) /\
  coll_contents (snd (coll_update now s t b a c)) =
    update_contents k (update_outcome now t b a (coll_contents c !! k)) (coll_contents c).
Proof.
  intros Hinv Hk. unfold coll_update, update_outcome. rewrite Hk, coll_contents_lookup.
  destruct (cast_update t b a) as [u|e]; simpl; [|done].
  destruct (validate_update u) as [cu|e]; simpl; [|done].
  destruct (find_doc k (docs c)) as [d|] eqn:F; simpl; [|done].
  split; [done|]. unfold coll_contents. simpl.
  apply contents_replace with (d := d); [exact F|].
  simpl. apply (coll_inv_doc c k d Hinv F).
Qed.

Lemma coll_update_inv (now : Z) (s : string) (t b a : jval) (c : Collection) :
  coll_inv c -> coll_inv (snd (coll_update now s t b a c)).
Proof.
  intros Hinv. unfold coll_update.
  destruct (oid_of_hex s) as [k|]; [|done].
  destruct (cast_update t b a) as [u|e]; [|done].
  destruct (validate_update u) as [cu|e] eqn:V; [|done].
  destruct (find_doc k (docs c)) as [d|] eqn:F; [|done].
  destruct (coll_inv_doc c k d Hinv F) as [[Hwf Hb] Hid].
  destruct Hinv as [Hnd Hall]. split; simpl.
  - rewrite map_id_replace; [exact Hnd|]. simpl. exact Hid.
  - apply Forall_replace; [|exact Hall]. split.
    + by apply (apply_update_wf now u).
    + exact Hb.
Qed.

Lemma coll_delete_spec (s : string) (c : Collection) (k : Z) :
  oid_of_hex s = Some k ->
  fst (coll_delete s c) = Ok (coll_contents c !! k) /\
  coll_contents (snd (coll_delete s c)) = delete k (coll_contents c).
Proof.
  intros Hk. unfold coll_delete. rewrite Hk, coll_contents_lookup.
  destruct (find_doc k (docs c)) as [d|] eqn:F; simpl.
  - split; [done|]. apply contents_remove.
  - split; [done|]. symmetry. apply delete_id. by rewrite coll_contents_lookup.
Qed.

Lemma coll_delete_inv (s : string) (c : Collection) :
  coll_inv c -> coll_inv (snd (coll_delete s c)).
Proof.
  intros [Hnd Hall]. unfold coll_delete.
  destruct (oid_of_hex s) as [k|]; [|by split].
  destruct (find_doc k (docs c)); simpl; [|by split].
  split; [by apply NoDup_map_filter | by apply Forall_List_filter].
Qed.

Lemma coll_contents_wf (c : Collection) (k : Z) (d : Blog) :
  coll_inv c -> coll_contents c !! k = Some d -> blog_wf d = true /\ _id d = k.
Proof.
  rewrite coll_contents_lookup. intros Hinv Hf.
  destruct (coll_inv_doc c k d Hinv Hf) as [[Hwf _] Hk]. auto.
Qed.

Lemma coll_save_ok (now : Z) (t b a : jval) (c : Collection) (doc : Blog) (c' : Collection) :
  coll_inv c -> coll_save now t b a c = (Ok doc, c') ->
  validate_new (_id doc) now (make_draft t b a) = Ok doc /\
  0 <= _id doc < 2 ^ 96 /\
  coll_contents c !! _id doc = None /\
  coll_contents c' = <[_id doc := doc]> (coll_contents c).
Proof.
  intros _ E. apply coll_save_Ok_inv in E as (V & Hid & F & Hd).
  split; [exact V|]. split; [rewrite Hid; apply generate_bound|].
  split; [by rewrite coll_contents_lookup|].
  unfold coll_contents. rewrite Hd. by apply contents_snoc.
Qed.

Lemma coll_save_err (now : Z) (t b a : jval) (c : Collection) (e : merror) (c' : Collection) :
  coll_inv c -> coll_save now t b a c = (Err e, c') -> coll_contents c' = coll_contents c.
Proof. intros _ E. apply coll_save_Err_docs in E. unfold coll_contents. by rewrite E. Qed.

Lemma coll_findById_spec (c : Collection) (s : string) (k : Z) :
  coll_inv c -> oid_of_hex s = Some k -> coll_findById s c = Ok (coll_contents c !! k).
Proof. intros _ Hk. unfold coll_findById. by rewrite Hk, coll_contents_lookup. Qed.

(** The refinement: the concrete collection satisfies the contract of
    the persistence adapter, with [coll_contents] as the abstraction and
    [coll_inv] as the invariant. *)
#[export] Instance Collection_laws : BlogModelLaws Collection := {
  model_inv := coll_inv;
  contents := coll_contents;
  contents_wf := coll_contents_wf;
  save_invalid now t b a st id e _ := coll_save_invalid now t b a st id e;
  save_ok := coll_save_ok;
  save_err := coll_save_err;
  save_inv := coll_save_inv;
  find_spec := coll_find_spec;
  findById_spec := coll_findById_spec;
  update_spec := coll_update_spec;
  update_inv := coll_update_inv;
  delete_spec st s k _ := coll_delete_spec s st k;
  delete_inv := coll_delete_inv
}.

Lemma empty_collection_inv (g : oid_gen) : coll_inv (empty_collection g).
Proof. split; constructor. Qed.

Lemma empty_collection_contents (g : oid_gen) : coll_contents (empty_collection g) = ∅.
Proof. reflexivity. Qed.

(** A save whose document validates and whose generated id is not in the
    collection succeeds: the only other failure is the unique index. *)
Lemma coll_save_fresh (now : Z) (t b a : jval) (c : Collection) (doc : Blog) :
  validate_new (fst (generate now (gen c))) now (make_draft t b a) = Ok doc ->
  find_doc (fst (generate now (gen c))) (docs c) = None ->
  coll_save now t b a c =
    (Ok doc, mkCollection (docs c ++ [doc]) (snd (generate now (gen c)))).
Proof.
  unfold coll_save. destruct (generate now (gen c)) as [id g']. simpl.
  intros V F. by rewrite V, F.
Qed.

(** ** The refinement, stated once *)

(** C25: on a collection satisfying the invariant, each operation of the
    Mongoose model acts on the abstract map of stored posts as the
    persistence contract says: a successful save adds the validated
    document under a fresh id, an update replaces the document with the
    cast, validated and applied update (or does nothing), a delete
    returns the snapshot and removes the key, [findById] reads the key,
    [find] returns every value once, newest first; and every operation
    keeps the invariant. *)
Theorem collection_refines (c : Collection) :
  coll_inv c ->
  (forall now t b a doc c',
     coll_save now t b a c = (Ok doc, c') ->
     validate_new (_id doc) now (make_draft t b a) = Ok doc /\
     coll_contents c !! _id doc = None /\
     coll_contents c' = <[_id doc := doc]> (coll_contents c) /\ coll_inv c') /\
  (forall now s t b a k, oid_of_hex s = Some k ->
     fst (coll_update now s t b a c) = update_outcome now t b a (coll_contents c !! k) /\
     coll_contents (snd (coll_update now s t b a c)) =
       update_contents k (update_outcome now t b a (coll_contents c !! k)) (coll_contents c) /\
     coll_inv (snd (coll_update now s t b a c))) /\
  (forall s k, oid_of_hex s = Some k ->
     fst (coll_delete s c) = Ok (coll_contents c !! k) /\
     coll_contents (snd (coll_delete s c)) = delete k (coll_contents c) /\
     coll_inv (snd (coll_delete s c))) /\
  (forall s k, oid_of_hex s = Some k -> coll_findById s c = Ok (coll_contents c !! k)) /\
  (exists l, coll_find c = Ok l /\
     l ≡ₚ (map_to_list (coll_contents c)).*2 /\ Sorted newer_first l).
Proof.
  intros Hi. split; [|split; [|split; [|split]]].
  - intros now t b a doc c' E.
    pose proof (coll_save_inv now t b a c Hi) as Hi'. rewrite E in Hi'.
    destruct (coll_save_ok now t b a c doc c' Hi E) as (V & _ & F & C). auto.
  - intros now s t b a k Hk.
    destruct (coll_update_spec now s t b a c k Hi Hk) as [H1 H2].
    auto using coll_update_inv.
  - intros s k Hk. destruct (coll_delete_spec s c k Hk) as [H1 H2].
    auto using coll_delete_inv.
  - intros s k. by apply coll_findById_spec.
  - by apply coll_find_spec.
Qed.

Lemma collection_refines_witness :
  coll_inv (empty_collection (mk_oid_gen 0 0)) /\
  coll_find (empty_collection (mk_oid_gen 0 0)) = Ok [].
Proof.
  pose proof (empty_collection_inv (mk_oid_gen 0 0)) as Hi.
  split; [exact Hi|].
  destruct (collection_refines _ Hi) as (_ & _ & _ & _ & (l & -> & Hp & _)).
  f_equal. apply Permutation_nil_r. exact Hp.
Defined.

(** ** Successive saves and the ids they draw *)

(** A create as the store sees it: the request time and the three
    fields passed to [new Blog({...})]. *)
Definition save_req : Type := Z * jval * jval * jval.

(** Creates one after the other, each [new Blog({...}).save()] running
    on the collection the previous one left. *)
Fixpoint save_seq (rqs : list save_req) (c : Collection)
  : list (result Blog merror) * Collection :=
  match rqs with
  | [] => ([], c)
  | (now, t, b, a) :: rs =>
      let '(r, c1) := coll_save now t b a c in
      let '(res, c2) := save_seq rs c1 in
      (r :: res, c2)
  end.

Definition save_times (rqs : list save_req) : list Z :=
  map (fun '(now, _, _, _) => now) rqs.

(** Whether a save failed on the unique index of [_id]. *)
Definition is_duplicate (r : result Blog merror) : bool :=
  match r with
  | Err (DuplicateKey _) => true
  | _ => false
  end.

Lemma coll_save_gen (now : Z) (t b a : jval) (c : Collection) :
  gen (snd (coll_save now t b a c)) = snd (generate now (gen c)).
Proof.
  unfold coll_save. destruct (generate now (gen c)) as [id g'].
  destruct (validate_new _ _ _); [destruct (find_doc _ _)|]; reflexivity.
Qed.

(** A save adds at most the document carrying the id it drew. *)
Lemma coll_save_docs_ids (now : Z) (t b a : jval) (c : Collection) (d : Blog) :
  In d (docs (snd (coll_save now t b a c))) ->
  In d (docs c) \/ _id d = fst (generate now (gen c)).
Proof.
  destruct (coll_save now t b a c) as [[doc|e] c'] eqn:E; simpl.
  - destruct (coll_save_Ok_inv now t b a c doc c' E) as (_ & Hid & _ & ->).
    intros [Hin|[<-|[]]]%in_app_or; auto.
  - rewrite (coll_save_Err_docs now t b a c e c' E). auto.
Qed.

(** Validation never reports a duplicate key: only the index does, and
    only for an id already stored. *)
Lemma coll_save_no_duplicate (now : Z) (t b a : jval) (c : Collection) :
  (forall d, In d (docs c) -> _id d <> fst (generate now (gen c))) ->
  is_duplicate (fst (coll_save now t b a c)) = false.
Proof.
  intros Hf. unfold coll_save. destruct (generate now (gen c)) as [id g']. simpl in Hf.
  destruct (validate_new id now _) as [doc|e] eqn:V; simpl.
  - destruct (find_doc id (docs c)) as [d|] eqn:F; [|reflexivity].
    apply find_doc_Some in F as [Hid Hin]. by destruct (Hf d Hin).
  - unfold validate_new in V. by destruct (both _ _) as [[? [? ?]]|]; inversion V.
Qed.

Lemma generate_seq_cons (t : Z) (ts : list Z) (g : oid_gen) :
  fst (generate_seq (t :: ts) g) =
  fst (generate t g) :: fst (generate_seq ts (snd (generate t g))).
Proof.
  cbn [generate_seq]. destruct (generate t g) as [o g1]. cbn [fst snd].
  destruct (generate_seq ts g1); reflexivity.
Qed.

(** The induction behind the uniqueness of drawn ids: if the ids the
    generator is about to draw are pairwise distinct and none is already
    stored, no save of the sequence hits the unique index. *)
Lemma save_seq_fresh (rqs : list save_req) (c : Collection) :
  NoDup (fst (generate_seq (save_times rqs) (gen c))) ->
  (forall d o, In d (docs c) -> o ∈ fst (generate_seq (save_times rqs) (gen c)) -> _id d <> o) ->
  Forall (fun r => is_duplicate r = false) (fst (save_seq rqs c)).
Proof.
  revert c. induction rqs as [|[[[now t] b] a] rs IH]; intros c Hnd Hf; [constructor|].
  change (save_times ((now, t, b, a) :: rs)) with (now :: save_times rs) in Hnd, Hf.
  rewrite generate_seq_cons in Hnd, Hf. cbn [save_seq].
  pose proof (coll_save_gen now t b a c) as Hg.
  pose proof (coll_save_no_duplicate now t b a c) as Hd.
  pose proof (coll_save_docs_ids now t b a c) as Hds.
  destruct (coll_save now t b a c) as [r c1] eqn:E. cbn [fst snd] in Hg, Hd, Hds.
  destruct (save_seq rs c1) as [res c2] eqn:Es. cbn [fst].
  apply NoDup_cons in Hnd as [Hnin Hnd].
  constructor.
  - apply Hd. intros d Hin. apply Hf; [exact Hin|]. left.
  - specialize (IH c1). rewrite Es, Hg in IH. apply IH; [exact Hnd|].
    intros d o Hin Ho. destruct (Hds d Hin) as [Hin' | ->].
    + apply Hf; [exact Hin'|]. by right.
    + intros <-. exact (Hnin Ho).
Qed.

(** C23: the id a successful save assigns is the one [new Blog({...})]
    drew: its timestamp field is the request time in seconds modulo 2^32,
    its counter field the generator's next value [(index + 1) % 0xffffff],
    and the generator has advanced to that value. *)
Theorem coll_save_id_fields (now : Z) (t b a : jval) (c c' : Collection) (doc : Blog) :
  coll_save now t b a c = (Ok doc, c') ->
  oid_timestamp (_id doc) = (now / 1000) mod 2 ^ 32 /\
  oid_counter (_id doc) = (index (gen c) + 1) mod inc_modulus /\
  index (gen c') = (index (gen c) + 1) mod inc_modulus.
Proof.
  intros E. pose proof (coll_save_gen now t b a c) as Hg. rewrite E in Hg. cbn [snd] in Hg.
  destruct (coll_save_Ok_inv now t b a c doc c' E) as (_ & -> & _ & _).
  destruct (generate_fields now (gen c)) as [H1 H2]. rewrite Hg. auto.
Qed.

(** C24: from an empty collection, fewer than [0xffffff] creates in a
    row never fail on the unique index of [_id], whatever the clock does
    between them (it may stand still or go back): the only errors a
    create can then meet are validation errors. *)
Theorem save_seq_no_duplicate (rqs : list save_req) (g : oid_gen) :
  Z.of_nat (List.length rqs) < inc_modulus ->
  Forall (fun r => is_duplicate r = false) (fst (save_seq rqs (empty_collection g))).
Proof.
  intros Hl. apply save_seq_fresh.
  - apply generate_seq_NoDup. unfold save_times. by rewrite length_map.
  - intros d o [].
Qed.

Section Samples.
Definition sample_saves : list save_req :=
  [(5000, JStr "a", JStr "b", JUndef); (5000, JStr "  ", JStr "d", JNull);
   (4000, JStr "e", JStr "f", JStr "g")].

Definition saved_doc : Blog :=
  mkBlog 31359464925306237747317440554 "T" "B" (Some "Anonymous"%string) 1700000000123 1700000000123 0.

Lemma coll_save_id_fields_witness :
  coll_save 1700000000123 (JStr "T") (JStr "B") JUndef (empty_collection (mk_oid_gen 41 7)) =
    (Ok saved_doc, mkCollection [saved_doc] (mk_oid_gen 42 7)) /\
  oid_timestamp (_id saved_doc) = 1700000000 /\ oid_counter (_id saved_doc) = 42.
Proof.
  assert (coll_save 1700000000123 (JStr "T") (JStr "B") JUndef (empty_collection (mk_oid_gen 41 7)) =
    (Ok saved_doc, mkCollection [saved_doc] (mk_oid_gen 42 7))) as E by (vm_compute; reflexivity).
  split; [exact E|].
  destruct (coll_save_id_fields _ _ _ _ _ _ _ E) as (-> & -> & _). split; reflexivity.
Defined.

Lemma save_seq_no_duplicate_witness :
  Z.of_nat (List.length sample_saves) < inc_modulus /\
  Forall (fun r => is_duplicate r = false)
    (fst (save_seq sample_saves (empty_collection (mk_oid_gen 16777213 9)))).
Proof.
  assert (Z.of_nat (List.length sample_saves) < inc_modulus) as H by (vm_compute; reflexivity).
  split; [exact H|]. exact (save_seq_no_duplicate _ _ H).
Defined.
End Samples.
