(* ===== verification/Handlers.v ===== *)
(** * The request handlers of [src/index.js]

    Each handler follows the shape of the source: read the parameters,
    check them in the source's order with an early [return] of a 400,
    make one call on the model, map [null] to 404 and a value to
    200/201, and map anything thrown (the [catch] block) to 500 with
    the error's message.  The handlers are written in a Section over
    any [BlogModel], so their theorems hold for every store, a failing
    one included; the theorems that read back what was written assume
    [BlogModelLaws].  The router dispatches a request on its method and
    path as the [app.post], [app.get], [app.put], [app.delete]
    registrations do. *)

From stdpp Require Import base list gmap.
From Stdlib Require Import ZArith String Sorted.
From S2P Require Import Prelude JsValue ObjectId Schema Store Collection.

Local Open Scope Z_scope.

Local Open Scope string_scope.

(** ** Responses *)

Inductive payload :=
| PBlog (d : Blog)
| PBlogs (ds : list Blog).

(** The JSON envelope [{ success, message, data?, count?, error? }]. *)
Record envelope := mk_envelope {
  success : bool;
  message : string;
  error : option string;
  data : option payload;
  count : option Z
}.

(** [res.status(code).json(envelope)]. *)
Record response := mk_response {
  status : Z;
  json : envelope
}.

(** [{ success: false, error, message }]. *)
Definition failure (code : Z) (err msg : string) : response :=
  mk_response code (mk_envelope false msg (Some err) None None).

(** [{ success: true, message, data }]. *)
Definition success_with (code : Z) (msg : string) (p : payload) : response :=
  mk_response code (mk_envelope true msg None (Some p) None).

(** The [catch] blocks: [{ success: false, error: 'Server error',
    message: err.message }]. *)
Definition server_error (e : merror) : response :=
  failure 500 "Server error" (merror_message e).

Definition invalid_id : response :=
  failure 400 "Invalid ID" "The provided blog ID is not valid".

Definition not_found : response :=
  failure 404 "Not found" "Blog post not found".

Definition title_required : response :=
  failure 400 "Validation failed" "Title is required field".

Definition body_required : response :=
  failure 400 "Validation failed" "Body is required field".

Section Handlers.
Context {S : Type} `{BlogModel S}.

(** [app.post('/blogs')]: lines 24-66. *)
Definition create_blog (now : Z) (reqbody : jval) (st : S) : response * S :=
  let title := prop reqbody "title" in
  let body := prop reqbody "body" in
  let author := prop reqbody "author" in
  if negb (truthy title) then (title_required, st)
  else if negb (truthy body) then (body_required, st)
  else
    match Blog_save now title body (js_or author (JStr author_default)) st with
    | (Ok savedBlog, st') =>
        (success_with 201 "Blog post created successfully" (PBlog savedBlog), st')
    | (Err e, st') => (server_error e, st')
    end.

(** [app.get('/blogs')]: lines 69-87. *)
Definition list_blogs (st : S) : response * S :=
  match Blog_find st with
  | Ok blogs =>
      (mk_response 200
         (mk_envelope true "Blogs retrieved successfully" None
            (Some (PBlogs blogs)) (Some (Z.of_nat (List.length blogs)))), st)
  | Err e => (server_error e, st)
  end.

(** [app.get('/blogs/:id')]: lines 90-126. *)
Definition get_blog (id : string) (st : S) : response * S :=
  if negb (isValid id) then (invalid_id, st)
  else
    match Blog_findById id st with
    | Ok None => (not_found, st)
    | Ok (Some blog) => (success_with 200 "Blog retrieved successfully" (PBlog blog), st)
    | Err e => (server_error e, st)
    end.

(** [app.put('/blogs/:id')]: lines 129-187. *)
Definition update_blog (now : Z) (id : string) (reqbody : jval) (st : S) : response * S :=
  let title := prop reqbody "title" in
  let body := prop reqbody "body" in
  let author := prop reqbody "author" in
  if negb (isValid id) then (invalid_id, st)
  else if negb (truthy title) then (title_required, st)
  else if negb (truthy body) then (body_required, st)
  else
    match Blog_findByIdAndUpdate now id title body author st with
    | (Ok None, st') => (not_found, st')
    | (Ok (Some updatedBlog), st') =>
        (success_with 200 "Blog post updated successfully" (PBlog updatedBlog), st')
    | (Err e, st') => (server_error e, st')
    end.

(** [app.delete('/blogs/:id')]: lines 190-226. *)
Definition delete_blog (id : string) (st : S) : response * S :=
  if negb (isValid id) then (invalid_id, st)
  else
    match Blog_findByIdAndDelete id st with
    | (Ok None, st') => (not_found, st')
    | (Ok (Some deletedBlog), st') =>
        (success_with 200 "Blog post deleted successfully" (PBlog deletedBlog), st')
    | (Err e, st') => (server_error e, st')
    end.
End Handlers.

(** ** Routing *)

Inductive http_method := GET | POST | PUT | DELETE.

(** A request as the handlers see it: the method, the path split into
    its (decoded) segments, the body parsed by [express.json()] and the
    wall-clock time at which the model's calls run. *)
Record request := mk_request {
  method : http_method;
  path : list string;
  req_body : jval;
  req_time : Z
}.

Inductive reply :=
| Reply (r : response)
| SendFile (file : string)
| NoRoute.

(** The endpoints of [index.js]: the method and path each
    [app.post], [app.get], [app.put], [app.delete] registration matches
    (lines 24, 69, 90, 129, 190, 229), [:id] binding the last segment. *)
Inductive endpoint :=
| EpCreate
| EpList
| EpGet (id : string)
| EpUpdate (id : string)
| EpDelete (id : string)
| EpIndex
| EpNone.

Definition route_of (m : http_method) (p : list string) : endpoint :=
  match p with
  | [] => match m with GET => EpIndex | _ => EpNone end
  | [seg] =>
      if String.eqb seg "blogs"
      then match m with POST => EpCreate | GET => EpList | _ => EpNone end
      else EpNone
  | [seg; id] =>
      if String.eqb seg "blogs"
      then match m with
           | GET => EpGet id
           | PUT => EpUpdate id
           | DELETE => EpDelete id
           | POST => EpNone
           end
      else EpNone
  | _ => EpNone
  end.

(** Dispatch to the handler; [GET /] sends the client page (lines
    229-231); a request no route matches gets Express's default
    answer. *)
Definition route {S : Type} `{BlogModel S} (rq : request) (st : S) : reply * S :=
  let lift (p : response * S) := (Reply (fst p), snd p) in
  match route_of (method rq) (path rq) with
  | EpCreate => lift (create_blog (req_time rq) (req_body rq) st)
  | EpList => lift (list_blogs st)
  | EpGet id => lift (get_blog id st)
  | EpUpdate id => lift (update_blog (req_time rq) id (req_body rq) st)
  | EpDelete id => lift (delete_blog id st)
  | EpIndex => (SendFile "public/index.html", st)
  | EpNone => (NoRoute, st)
  end.

(** ** Lemmas on the id format used by the guards *)

Lemma oid_of_hex_None (s : string) : oid_of_hex s = None <-> isValid s = false.
Proof. unfold oid_of_hex. destruct (isValid s); split; congruence. Qed.

Lemma oid_of_hex_Some (s : string) : isValid s = true -> exists k, oid_of_hex s = Some k.
Proof. unfold oid_of_hex. intros ->. eauto. Qed.

Lemma oid_of_hex_valid (s : string) (k : Z) : oid_of_hex s = Some k -> isValid s = true.
Proof. unfold oid_of_hex. by destruct (isValid s). Qed.

(** ** Status mapping for every store *)

Section AnyStore.
Context {S : Type} `{BlogModel S}.



(** C8: whatever the model throws reaches the client as 500
    "Server error" with the error's own message, in every handler, and
    the state is what the failed call left. *)
Theorem model_error_500 (now : Z) (id : string) (rb : jval) (st st' : S) (e : merror) :
  (truthy (prop rb "title") = true -> truthy (prop rb "body") = true ->
   Blog_save now (prop rb "title") (prop rb "body")
     (js_or (prop rb "author") (JStr author_default)) st = (Err e, st') ->
   create_blog now rb st = (server_error e, st')) /\
  (Blog_find st = Err e -> list_blogs st = (server_error e, st)) /\
  (isValid id = true -> Blog_findById id st = Err e ->
   get_blog id st = (server_error e, st)) /\
  (isValid id = true -> truthy (prop rb "title") = true -> truthy (prop rb "body") = true ->
   Blog_findByIdAndUpdate now id (prop rb "title") (prop rb "body") (prop rb "author") st
     = (Err e, st') ->
   update_blog now id rb st = (server_error e, st')) /\
  (isValid id = true -> Blog_findByIdAndDelete id st = (Err e, st') ->
   delete_blog id st = (server_error e, st')).
Proof.
  unfold create_blog, list_blogs, get_blog, update_blog, delete_blog.
  repeat split; intros; repeat match goal with H : _ = true |- _ => rewrite H; clear H end;
    simpl; repeat match goal with H : _ = _ |- _ => rewrite H; clear H end; done.
Qed.

(** The list handler's envelope: [count] is the length of [data]. *)
Lemma list_blogs_count (st : S) (blogs : list Blog) :
  Blog_find st = Ok blogs ->
  list_blogs st =
    (mk_response 200 (mk_envelope true "Blogs retrieved successfully" None
       (Some (PBlogs blogs)) (Some (Z.of_nat (List.length blogs)))), st).
Proof. unfold list_blogs. by intros ->. Qed.
End AnyStore.

(** ** Functional specifications against the store's contract *)

(** The response a handler gives for what the model returned. *)
Definition found_response (msg : string) (r : option Blog) : response :=
  match r with
  | None => not_found
  | Some d => success_with 200 msg (PBlog d)
  end.

Definition update_response (r : result (option Blog) merror) : response :=
  match r with
  | Ok o => found_response "Blog post updated successfully" o
  | Err e => server_error e
  end.

Section WithLaws.
Context {S : Type} `{BlogModelLaws S}.

(** [GET /blogs/:id] as a function of the stored documents: 400
    for a malformed id, 404 for a well-formed id with no document, 200
    with exactly the stored document otherwise; nothing changes. *)
Theorem get_blog_lookup (id : string) (st : S) :
  model_inv st ->
  get_blog id st =
    (match oid_of_hex id with
     | None => invalid_id
     | Some k => found_response "Blog retrieved successfully" (contents st !! k)
     end, st).
Proof.
  intros Hi. unfold get_blog. destruct (oid_of_hex id) as [k|] eqn:E.
  - rewrite (oid_of_hex_valid id k E). simpl.
    rewrite (findById_spec st id k Hi E). by destruct (contents st !! k).
  - apply oid_of_hex_None in E. by rewrite E.
Qed.

(** [DELETE /blogs/:id] on a well-formed id answers with the
    document as it was before the deletion (or 404), and afterwards the
    id names nothing. *)
Theorem delete_blog_outcome (id : string) (k : Z) (st : S) :
  model_inv st -> oid_of_hex id = Some k ->
  fst (delete_blog id st) = found_response "Blog post deleted successfully" (contents st !! k) /\
  contents (snd (delete_blog id st)) = delete k (contents st).
Proof.
  intros Hi E. unfold delete_blog. rewrite (oid_of_hex_valid id k E). simpl.
  destruct (delete_spec st id k Hi E) as [Hr Hc].
  destruct (Blog_findByIdAndDelete id st) as [r st'] eqn:D. simpl in *.
  subst r. by destruct (contents st !! k).
Qed.

(** [PUT /blogs/:id] with a well-formed id and truthy title and
    body: the update is cast and validated before the document is
    looked up, a failure is a 500 carrying the model's message, a
    missing document is a 404, and otherwise the response and the
    stored document are the old document with the new fields and
    [updatedAt] set to the request time. *)
Theorem update_blog_outcome (now : Z) (id : string) (k : Z) (rb : jval) (st : S) :
  model_inv st -> oid_of_hex id = Some k ->
  truthy (prop rb "title") = true -> truthy (prop rb "body") = true ->
  let r := update_outcome now (prop rb "title") (prop rb "body") (prop rb "author")
             (contents st !! k) in
  fst (update_blog now id rb st) = update_response r /\
  contents (snd (update_blog now id rb st)) = update_contents k r (contents st).
Proof.
  intros Hi E Ht Hb r. unfold update_blog. rewrite (oid_of_hex_valid id k E), Ht, Hb. simpl.
  destruct (update_spec now id (prop rb "title") (prop rb "body") (prop rb "author") st k Hi E)
    as [Hr Hc].
  destruct (Blog_findByIdAndUpdate _ _ _ _ _ _) as [res st'] eqn:U. simpl in *.
  fold r in Hr, Hc. subst res.
  by destruct r as [[d|]|e].
Qed.

(** [POST /blogs] with truthy title and body: either 201 with the
    document the schema built from the request (title trimmed, author
    defaulted by [author || 'Anonymous']), filed under a fresh id, or
    500 with the model's message and nothing written; a request the
    schema rejects always gets that 500. *)
Theorem create_blog_cases (now : Z) (rb : jval) (st : S) :
  model_inv st ->
  truthy (prop rb "title") = true -> truthy (prop rb "body") = true ->
  let d := make_draft (prop rb "title") (prop rb "body")
             (js_or (prop rb "author") (JStr author_default)) in
  ((exists doc,
      fst (create_blog now rb st) = success_with 201 "Blog post created successfully" (PBlog doc) /\
      validate_new (_id doc) now d = Ok doc /\
      0 <= _id doc < 2 ^ 96 /\
      contents st !! _id doc = None /\
      contents (snd (create_blog now rb st)) = <[_id doc := doc]> (contents st)) \/
   (exists e,
      fst (create_blog now rb st) = server_error e /\
      contents (snd (create_blog now rb st)) = contents st)) /\
  (forall id e, validate_new id now d = Err e -> fst (create_blog now rb st) = server_error e).
Proof.
  intros Hi Ht Hb d. unfold create_blog. rewrite Ht, Hb. simpl. split.
  - destruct (Blog_save _ _ _ _ st) as [[doc|e] st'] eqn:Sv; simpl.
    + left. exists doc. destruct (save_ok _ _ _ _ _ _ _ Hi Sv) as (V & Hb' & F & C). auto.
    + right. exists e. split; [done|]. exact (save_err _ _ _ _ _ _ _ Hi Sv).
  - intros id e V. pose proof (save_invalid _ _ _ _ st _ _ Hi V) as Sv.
    destruct (Blog_save _ _ _ _ st) as [r st']. simpl in Sv. by subst r.
Qed.

(** C5: [GET /blogs] lists every stored document exactly once, newest
    first, with [count] the number of stored documents. *)
Theorem list_blogs_spec (st : S) :
  model_inv st ->
  exists l,
    list_blogs st =
      (mk_response 200 (mk_envelope true "Blogs retrieved successfully" None
         (Some (PBlogs l)) (Some (Z.of_nat (size (contents st))))), st) /\
    l ≡ₚ (map_to_list (contents st)).*2 /\ Sorted newer_first l.
Proof.
  intros Hi. destruct (find_spec st Hi) as (l & Hf & Hp & Hs).
  exists l. split; [|auto]. rewrite (list_blogs_count st l Hf).
  do 4 f_equal. rewrite Hp, length_fmap, length_map_to_list. reflexivity.
Qed.
End WithLaws.

(** ** The endpoint contracts *)

Section Contracts.
Context {S : Type} `{BlogModelLaws S}.

(** C1: [POST /blogs], every branch: a falsy title is answered 400
    "Title is required field" and a falsy body (with a truthy title)
    400 "Body is required field", both without touching the store; with
    both truthy, a document the schema rejects (for any id it could be
    given) is answered 500 with the validation message, and a 201
    carries the document the schema built from the title, the body and
    [author || 'Anonymous'], under a fresh 96-bit id, now stored. *)
Theorem create_blog_spec (now : Z) (rb : jval) (st : S) :
  model_inv st ->
  let t := prop rb "title" in
  let b := prop rb "body" in
  let d := make_draft t b (js_or (prop rb "author") (JStr author_default)) in
  (truthy t = false -> create_blog now rb st = (title_required, st)) /\
  (truthy t = true -> truthy b = false -> create_blog now rb st = (body_required, st)) /\
  (truthy t = true -> truthy b = true ->
   (forall id e, validate_new id now d = Err e -> fst (create_blog now rb st) = server_error e) /\
   (forall doc,
      fst (create_blog now rb st) = success_with 201 "Blog post created successfully" (PBlog doc) ->
      validate_new (_id doc) now d = Ok doc /\ 0 <= _id doc < 2 ^ 96 /\
      contents st !! _id doc = None /\
      contents (snd (create_blog now rb st)) = <[_id doc := doc]> (contents st))).
Proof.
  intros Hi t b d. split; [|split].
  - unfold create_blog. fold t. by intros ->.
  - unfold create_blog. fold t b. by intros -> ->.
  - intros Ht Hb. pose proof (create_blog_cases now rb st Hi Ht Hb) as Hc. cbv zeta in Hc.
    destruct Hc as [Hcases Hinvalid]. split; [exact Hinvalid|].
    intros doc Hdoc.
    destruct Hcases as [(doc' & Hc & V & Hrange & F & C) | (e & He & _)].
    + rewrite Hdoc in Hc. injection Hc as <-. auto.
    + rewrite Hdoc in He. discriminate.
Qed.

(** C2: [GET /blogs/:id], every branch: the store is unchanged, a
    malformed id is answered 400 "Invalid ID", and a well-formed one 404
    when no post has that id and 200 with exactly the stored post
    otherwise. *)
Theorem get_blog_spec (id : string) (st : S) :
  model_inv st ->
  snd (get_blog id st) = st /\
  (isValid id = false -> fst (get_blog id st) = invalid_id) /\
  (forall k, oid_of_hex id = Some k ->
   fst (get_blog id st) = found_response "Blog retrieved successfully" (contents st !! k)).
Proof.
  intros Hi. rewrite (get_blog_lookup id st Hi). simpl. split; [done|]. split.
  - intros V. apply oid_of_hex_None in V. by rewrite V.
  - intros k ->. reflexivity.
Qed.

(** C3: [PUT /blogs/:id], every branch in the source's order: a
    malformed id is 400 "Invalid ID" before the body is looked at, then
    a falsy title and a falsy body are 400 "Validation failed", all
    three without touching the store; otherwise the answer and the new
    store are those of the model's cast, validate, then update of the
    document with that id (404 when there is none, 500 with the model's
    message when the update is invalid). *)
Theorem update_blog_spec (now : Z) (id : string) (rb : jval) (st : S) :
  model_inv st ->
  let t := prop rb "title" in
  let b := prop rb "body" in
  (isValid id = false -> update_blog now id rb st = (invalid_id, st)) /\
  (isValid id = true -> truthy t = false -> update_blog now id rb st = (title_required, st)) /\
  (isValid id = true -> truthy t = true -> truthy b = false ->
   update_blog now id rb st = (body_required, st)) /\
  (forall k, oid_of_hex id = Some k -> truthy t = true -> truthy b = true ->
   let r := update_outcome now t b (prop rb "author") (contents st !! k) in
   fst (update_blog now id rb st) = update_response r /\
   contents (snd (update_blog now id rb st)) = update_contents k r (contents st)).
Proof.
  intros Hi t b. unfold update_blog. fold t b. split; [|split; [|split]].
  - by intros ->.
  - by intros -> ->.
  - by intros -> -> ->.
  - intros k Hk Ht Hb. fold (update_blog now id rb st).
    exact (update_blog_outcome now id k rb st Hi Hk Ht Hb).
Qed.

(** C4: [DELETE /blogs/:id], every branch: a malformed id is 400
    "Invalid ID" with the store untouched; a well-formed one is answered
    with the post as it was stored (404 when there is none) and the post
    is gone from the store. *)
Theorem delete_blog_spec (id : string) (st : S) :
  model_inv st ->
  (isValid id = false -> delete_blog id st = (invalid_id, st)) /\
  (forall k, oid_of_hex id = Some k ->
   fst (delete_blog id st) = found_response "Blog post deleted successfully" (contents st !! k) /\
   contents (snd (delete_blog id st)) = delete k (contents st)).
Proof.
  intros Hi. split.
  - unfold delete_blog. by intros ->.
  - intros k Hk. exact (delete_blog_outcome id k st Hi Hk).
Qed.
End Contracts.

(** ** Concrete runs *)

Section Samples.
Definition g0 : oid_gen := mk_oid_gen 41 7.

Definition sample_doc : Blog := mkBlog 1 "Hello" "World" (Some "Anonymous") 1000 1000 0.

Definition sample_coll : Collection := mkCollection [sample_doc] g0.

Definition sample_body : jval := JObj [("title", JStr "Hello"); ("body", JStr "World")].

Definition edit_body : jval :=
  JObj [("title", JStr " New "); ("body", JStr "Text"); ("author", JStr "Ann")].

Lemma sample_coll_inv : coll_inv sample_coll.
Proof.
  split; simpl; [apply NoDup_singleton|].
  constructor; [split; [reflexivity|simpl; lia]|constructor].
Qed.

Lemma sample_model_inv : model_inv sample_coll.
Proof. exact sample_coll_inv. Qed.

Lemma empty_model_inv : model_inv (empty_collection g0).
Proof. apply empty_collection_inv. Qed.

(** A store whose every call fails as a lost connection does. *)
Definition connection_lost : merror := DriverError "connection closed".

#[local] Instance Down_model : BlogModel unit := {
  Blog_save _ _ _ _ st := (Err connection_lost, st);
  Blog_find _ := Err connection_lost;
  Blog_findById _ _ := Err connection_lost;
  Blog_findByIdAndUpdate _ _ _ _ _ st := (Err connection_lost, st);
  Blog_findByIdAndDelete _ st := (Err connection_lost, st)
}.

Lemma create_blog_spec_witness :
  truthy (prop sample_body "title") = true /\ truthy (prop sample_body "body") = true /\
  fst (create_blog 5000 sample_body (empty_collection g0)) =
    success_with 201 "Blog post created successfully"
      (PBlog (mkBlog (fst (generate 5000 g0)) "Hello" "World" (Some "Anonymous") 5000 5000 0)) /\
  contents (snd (create_blog 5000 sample_body (empty_collection g0))) =
    {[fst (generate 5000 g0) := mkBlog (fst (generate 5000 g0)) "Hello" "World"
                                   (Some "Anonymous") 5000 5000 0]}.
Proof.
  assert (fst (create_blog 5000 sample_body (empty_collection g0)) =
    success_with 201 "Blog post created successfully"
      (PBlog (mkBlog (fst (generate 5000 g0)) "Hello" "World" (Some "Anonymous") 5000 5000 0)))
    as Hc by (vm_compute; reflexivity).
  split; [reflexivity|]. split; [reflexivity|]. split; [exact Hc|].
  destruct (create_blog_spec (S:=Collection) 5000 sample_body (empty_collection g0) empty_model_inv)
    as (_ & _ & H3).
  destruct (H3 eq_refl eq_refl) as [_ H4].
  destruct (H4 _ Hc) as (_ & _ & _ & ->). reflexivity.
Defined.


Lemma get_blog_spec_witness :
  oid_of_hex (oid_to_hex 1) = Some 1 /\ oid_of_hex (oid_to_hex 2) = Some 2 /\
  fst (get_blog (oid_to_hex 1) sample_coll) =
    success_with 200 "Blog retrieved successfully" (PBlog sample_doc) /\
  fst (get_blog (oid_to_hex 2) sample_coll) = not_found /\
  fst (get_blog "not-an-id" sample_coll) = invalid_id.
Proof.
  destruct (get_blog_spec (S:=Collection) (oid_to_hex 1) sample_coll sample_model_inv) as (_ & _ & H1).
  destruct (get_blog_spec (S:=Collection) (oid_to_hex 2) sample_coll sample_model_inv) as (_ & _ & H2).
  destruct (get_blog_spec (S:=Collection) "not-an-id" sample_coll sample_model_inv) as (_ & H3 & _).
  split; [reflexivity|]. split; [reflexivity|].
  split; [rewrite (H1 1 eq_refl); vm_compute; reflexivity|].
  split; [rewrite (H2 2 eq_refl); vm_compute; reflexivity|].
  exact (H3 eq_refl).
Defined.


Lemma update_blog_spec_witness :
  oid_of_hex (oid_to_hex 1) = Some 1 /\
  fst (update_blog 9000 (oid_to_hex 1) edit_body sample_coll) =
    success_with 200 "Blog post updated successfully"
      (PBlog (mkBlog 1 "New" "Text" (Some "Ann") 1000 9000 0)) /\
  update_blog 9000 (oid_to_hex 1) (JObj [("title", JStr "T")]) sample_coll =
    (body_required, sample_coll).
Proof.
  destruct (update_blog_spec (S:=Collection) 9000 (oid_to_hex 1) edit_body sample_coll
              sample_model_inv) as (_ & _ & _ & H4).
  destruct (update_blog_spec (S:=Collection) 9000 (oid_to_hex 1) (JObj [("title", JStr "T")])
              sample_coll sample_model_inv) as (_ & _ & H3 & _).
  split; [reflexivity|]. split.
  - destruct (H4 1 eq_refl eq_refl eq_refl) as [-> _]. vm_compute. reflexivity.
  - exact (H3 eq_refl eq_refl eq_refl).
Defined.

Lemma delete_blog_spec_witness :
  oid_of_hex (oid_to_hex 1) = Some 1 /\
  fst (delete_blog (oid_to_hex 1) sample_coll) =
    success_with 200 "Blog post deleted successfully" (PBlog sample_doc) /\
  contents (snd (delete_blog (oid_to_hex 1) sample_coll)) = ∅.
Proof.
  destruct (delete_blog_spec (S:=Collection) (oid_to_hex 1) sample_coll sample_model_inv)
    as (_ & H2).
  destruct (H2 1 eq_refl) as [-> ->].
  split; [reflexivity|]. split; vm_compute; reflexivity.
Defined.

Lemma list_blogs_spec_witness :
  coll_inv sample_coll /\
  exists l, fst (list_blogs sample_coll) =
    mk_response 200 (mk_envelope true "Blogs retrieved successfully" None
      (Some (PBlogs l)) (Some 1)).
Proof.
  split; [exact sample_coll_inv|].
  destruct (list_blogs_spec (S:=Collection) sample_coll sample_model_inv) as (l & -> & _ & _).
  exists l. reflexivity.
Defined.

Lemma model_error_500_witness :
  get_blog (oid_to_hex 1) tt = (server_error connection_lost, tt) /\
  status (fst (create_blog 0 sample_body tt)) = 500.
Proof.
  destruct (model_error_500 0 (oid_to_hex 1) sample_body tt tt connection_lost)
    as (Hc & _ & Hg & _ & _).
  split; [by apply Hg|]. by rewrite (Hc eq_refl eq_refl eq_refl).
Defined.
End Samples.
