(* ===== verification/Client.v ===== *)
(** * The browser client of [src/public/script.js]

    The page keeps its state in the DOM: the hidden [blog-id] input (the
    post being edited, [""] in create mode), the title, author and body
    inputs, the submit button (disabled flag and label), the form
    heading, the cancel button's visibility, the toast, and the list
    container.  This file models that state as a record [ui] and each
    handler of the script as a function on it: the submit handler is
    split at its [await] into [submit_request] (validation and the
    request to send) and [submit_done] (the [if (result.success)] branch
    and the [finally] block); [editBlog], [deleteBlog] and [loadBlogs]
    likewise; [displayBlogs] and [escapeHtml] render the list.  The
    requests are values of [Handlers.request], so [System] can run the
    client against the server. *)

From stdpp Require Import base list.
From Stdlib Require Import ZArith String Ascii Lia.
From S2P Require Import Prelude JsValue ObjectId Schema Store Handlers.

Local Open Scope string_scope.

(** ** Page state *)

(** The values of the four form inputs. *)
Record form := mk_form {
  blogId : string;
  titleIn : string;
  authorIn : string;
  bodyIn : string
}.

Inductive toast_kind := ToastSuccess | ToastError.

(** A rendered blog card: the escaped texts, the two timestamps (the
    "Updated" part only when they differ) and the id the edit and delete
    buttons carry. *)
Record card := mk_card {
  card_title : string;
  card_author : string;
  card_body : string;
  card_created : Z;
  card_updated : option Z;
  card_id : string
}.

(** What [blogsContainer] shows. *)
Inductive view :=
| Loading
| Cards (cs : list card)
| EmptyState
| LoadError.

Record ui := mk_ui {
  frm : form;
  submit_disabled : bool;
  submit_text : string;
  form_title : string;
  cancel_shown : bool;
  toast : option (string * toast_kind);
  blogs_view : view
}.

Definition set_form (u : ui) (f : form) : ui :=
  mk_ui f (submit_disabled u) (submit_text u) (form_title u) (cancel_shown u)
    (toast u) (blogs_view u).

(** [showToast(message, type)] (lines 21-28): the toast shows the
    message with the type's class. *)
Definition showToast (msg : string) (k : toast_kind) (u : ui) : ui :=
  mk_ui (frm u) (submit_disabled u) (submit_text u) (form_title u) (cancel_shown u)
    (Some (msg, k)) (blogs_view u).

(** The [setTimeout] callback of [showToast], three seconds later: the
    [show] class is removed and the toast is hidden. *)
Definition hideToast (u : ui) : ui :=
  mk_ui (frm u) (submit_disabled u) (submit_text u) (form_title u) (cancel_shown u)
    None (blogs_view u).

(** [resetForm()] (lines 209-215): the inputs are cleared, the id too,
    and the form goes back to create mode. *)
Definition resetForm (u : ui) : ui :=
  mk_ui (mk_form "" "" "" "") (submit_disabled u) "Create Blog Post"
    "Create New Blog Post" false (toast u) (blogs_view u).

(** ** Rendering *)

(** The text of a node serialised by [innerHTML] (lines 84-88):
    [&], no-break space, [<] and [>] become entities. *)
Definition escape_char (c : ascii) : string :=
  match nat_of_ascii c with
  | 38 => "&amp;"
  | 60 => "&lt;"
  | 62 => "&gt;"
  | 160 => "&nbsp;"
  | _ => String c EmptyString
  end.

Fixpoint escapeHtml (s : string) : string :=
  match s with
  | EmptyString => EmptyString
  | String c s' => escape_char c ++ escapeHtml s'
  end.

(** [div.textContent = text]: [null] sets no text. *)
Definition text_of (o : option string) : string := default "" o.

(** One card of [displayBlogs] (lines 59-80). *)
Definition render_card (b : Blog) : card :=
  mk_card (escapeHtml (title b)) (escapeHtml (text_of (author b))) (escapeHtml (body b))
    (createdAt b)
    (if Z.eqb (createdAt b) (updatedAt b) then None else Some (updatedAt b))
    (oid_to_hex (_id b)).

Definition displayBlogs (blogs : list Blog) : view := Cards (map render_card blogs).

(** [loadBlogs()] (lines 31-53) up to its [await]: the container shows
    the loading message. *)
Definition loadBlogs_start (u : ui) : ui :=
  mk_ui (frm u) (submit_disabled u) (submit_text u) (form_title u) (cancel_shown u)
    (toast u) Loading.

(** [loadBlogs()] after the [fetch]: [None] when the
    request or the JSON parsing threw. *)
Definition loadBlogs_done (r : option envelope) (u : ui) : ui :=
  match r with
  | None =>
      showToast "Error loading blogs" ToastError
        (mk_ui (frm u) (submit_disabled u) (submit_text u) (form_title u) (cancel_shown u)
           (toast u) LoadError)
  | Some env =>
      let v :=
        match success env, data env with
        | true, Some (PBlogs (_ :: _ as blogs)) => displayBlogs blogs
        | _, _ => EmptyState
        end in
      mk_ui (frm u) (submit_disabled u) (submit_text u) (form_title u) (cancel_shown u)
        (toast u) v
  end.

(** ** The form's submit handler (lines 91-154) *)

(** [JSON.stringify(blogData)] as the server parses it. *)
Definition blog_data (title body author : string) : jval :=
  JObj [("title", JStr title); ("body", JStr body);
        ("author", js_or (JStr author) (JStr author_default))].

(** Up to the [await fetch]: read and trim the inputs, reject an empty
    title or body with a toast, otherwise disable the button, set its
    busy label, and send a PUT to [/blogs/:blogId] in edit mode or a POST
    to [/blogs] in create mode. *)
Definition submit_request (now : Z) (u : ui) : ui * option request :=
  let bid := blogId (frm u) in
  let title := js_trim (titleIn (frm u)) in
  let author := js_trim (authorIn (frm u)) in
  let body := js_trim (bodyIn (frm u)) in
  if is_empty title then (showToast "Title is required!" ToastError u, None)
  else if is_empty body then (showToast "Body is required!" ToastError u, None)
  else
    let u' := mk_ui (frm u) true (if is_empty bid then "Creating..." else "Updating...")
                (form_title u) (cancel_shown u) (toast u) (blogs_view u) in
    let rq := if is_empty bid
              then mk_request POST ["blogs"] (blog_data title body author) now
              else mk_request PUT ["blogs"; bid] (blog_data title body author) now in
    (u', Some rq).

(** After the response: on success a toast, [resetForm()] and a list
    reload are started, otherwise an error toast ([None] is a thrown
    [fetch] or JSON error); then the [finally] block re-enables the
    button and labels it from the [blogId] read at the start. The
    boolean says whether [loadBlogs()] was started (its GET is then
    pending). *)
Definition submit_done (bid : string) (r : option envelope) (u : ui) : ui * bool :=
  let '(u1, reload) :=
    match r with
    | Some env =>
        if success env
        then (loadBlogs_start (resetForm (showToast (message env) ToastSuccess u)), true)
        else (showToast (if is_empty (message env) then "Operation failed" else message env)
                ToastError u, false)
    | None => (showToast "Error saving blog post" ToastError u, false)
    end in
  (mk_ui (frm u1) false (if is_empty bid then "Create Blog Post" else "Update Blog Post")
     (form_title u1) (cancel_shown u1) (toast u1) (blogs_view u1), reload).

(** ** Editing and deleting *)

(** [editBlog(id)] (lines 157-182), after the GET: fill the form with
    the post and switch to edit mode. *)
Definition editBlog_done (r : option envelope) (u : ui) : ui :=
  match r with
  | Some env =>
      match success env, data env with
      | true, Some (PBlog b) =>
          mk_ui (mk_form (oid_to_hex (_id b)) (title b) (text_of (author b)) (body b))
            (submit_disabled u) "Update Blog Post" "Edit Blog Post" true (toast u) (blogs_view u)
      | _, _ => showToast "Error loading blog for editing" ToastError u
      end
  | None => showToast "Error loading blog for editing" ToastError u
  end.

Definition editBlog_request (id : string) (now : Z) : request :=
  mk_request GET ["blogs"; id] JUndef now.

(** [deleteBlog(id)] (lines 185-207): nothing without the user's
    confirmation, otherwise a DELETE. *)
Definition deleteBlog_request (confirmed : bool) (id : string) (now : Z) : option request :=
  if confirmed then Some (mk_request DELETE ["blogs"; id] JUndef now) else None.

Definition deleteBlog_done (r : option envelope) (u : ui) : ui * bool :=
  match r with
  | Some env =>
      if success env then (loadBlogs_start (showToast (message env) ToastSuccess u), true)
      else (showToast (if is_empty (message env) then "Delete failed" else message env)
              ToastError u, false)
  | None => (showToast "Error deleting blog post" ToastError u, false)
  end.

(** The page as first shown: create mode, empty form, loading. *)
Definition initial_ui : ui :=
  mk_ui (mk_form "" "" "" "") false "Create Blog Post" "Create New Blog Post" false None Loading.

(** ** Properties of the client *)

Fixpoint has_char (n : nat) (s : string) : bool :=
  match s with
  | EmptyString => false
  | String c s' => (nat_of_ascii c =? n)%nat || has_char n s'
  end.

Lemma has_char_app (n : nat) (s1 s2 : string) :
  has_char n (s1 ++ s2) = has_char n s1 || has_char n s2.
Proof. induction s1 as [|c s1 IH]; simpl; [done|]. by rewrite IH, orb_assoc. Qed.

Fixpoint is_prefix (p s : string) : bool :=
  match p, s with
  | EmptyString, _ => true
  | String c p', String d s' => Ascii.eqb c d && is_prefix p' s'
  | String _ _, EmptyString => false
  end.

Lemma app_eq_prefix (a b r1 r2 : string) :
  a ++ r1 = b ++ r2 -> is_prefix a b = true \/ is_prefix b a = true.
Proof.
  revert b. induction a as [|c a IH]; intros b; simpl; [auto|].
  destruct b as [|d b]; simpl; [auto|].
  intros [= -> H]. rewrite Ascii.eqb_refl. simpl. by apply IH.
Qed.

Lemma app_inv_prefix (a r1 r2 : string) : a ++ r1 = a ++ r2 -> r1 = r2.
Proof. induction a as [|c a IH]; simpl; [done|]. intros [= H]. by apply IH. Qed.

(** Per unit, by evaluation over the 256 of them: no escape contains an
    angle bracket, and no escape is a prefix of another's. *)
Definition escape_no_tags_ok (n : nat) : bool :=
  let e := escape_char (ascii_of_nat n) in
  negb (is_empty e) && negb (has_char 60 e) && negb (has_char 62 e).

Definition escape_prefix_ok (n m : nat) : bool :=
  (n =? m)%nat || negb (is_prefix (escape_char (ascii_of_nat n)) (escape_char (ascii_of_nat m))).

Lemma escape_no_tags_table : forallb escape_no_tags_ok (seq 0 256) = true.
Proof. vm_compute. reflexivity. Qed.

Lemma escape_prefix_table :
  forallb (fun n => forallb (escape_prefix_ok n) (seq 0 256)) (seq 0 256) = true.
Proof. vm_compute. reflexivity. Qed.

Lemma in_seq_ascii (c : ascii) : In (nat_of_ascii c) (seq 0 256).
Proof. apply in_seq. pose proof (nat_ascii_bounded c). lia. Qed.

Lemma escape_char_no_tags (c : ascii) :
  is_empty (escape_char c) = false /\
  has_char 60 (escape_char c) = false /\ has_char 62 (escape_char c) = false.
Proof.
  pose proof (proj1 (forallb_forall _ _) escape_no_tags_table _ (in_seq_ascii c)) as H.
  unfold escape_no_tags_ok in H. rewrite ascii_nat_embedding in H.
  apply andb_true_iff in H as [H H2]. apply andb_true_iff in H as [H0 H1].
  apply negb_true_iff in H0, H1, H2. auto.
Qed.

Lemma escape_char_prefix (c d : ascii) :
  is_prefix (escape_char c) (escape_char d) = true -> c = d.
Proof.
  intros Hp.
  pose proof (proj1 (forallb_forall _ _) escape_prefix_table _ (in_seq_ascii c)) as H.
  pose proof (proj1 (forallb_forall _ _) H _ (in_seq_ascii d)) as H'.
  unfold escape_prefix_ok in H'. rewrite !ascii_nat_embedding, Hp in H'.
  rewrite orb_false_r in H'. apply Nat.eqb_eq in H'.
  rewrite <- (ascii_nat_embedding c), <- (ascii_nat_embedding d). by rewrite H'.
Qed.

(** C19: escaped text holds no [<] and no [>]: a post's title, author
    or body cannot open or close a tag in the card it is rendered in. *)
Theorem escapeHtml_no_tags (s : string) :
  has_char 60 (escapeHtml s) = false /\ has_char 62 (escapeHtml s) = false.
Proof.
  induction s as [|c s [IH1 IH2]]; simpl; [done|].
  destruct (escape_char_no_tags c) as (_ & H1 & H2).
  by rewrite !has_char_app, H1, H2, IH1, IH2.
Qed.

(** C20: escaping loses nothing: two texts render the same only if they
    are the same text. *)
Theorem escapeHtml_injective (s1 s2 : string) :
  escapeHtml s1 = escapeHtml s2 -> s1 = s2.
Proof.
  revert s2. induction s1 as [|c s1 IH]; intros [|d s2]; simpl.
  - done.
  - intros H. destruct (escape_char_no_tags d) as (E & _).
    destruct (escape_char d); [discriminate|discriminate H].
  - intros H. destruct (escape_char_no_tags c) as (E & _).
    destruct (escape_char c); [discriminate|discriminate H].
  - intros H. pose proof H as H'. apply app_eq_prefix in H' as [P|P];
      apply escape_char_prefix in P; subst; apply app_inv_prefix in H; f_equal; by apply IH.
Qed.

(** A card shows "Updated" exactly when the post was modified after its
    creation, and its buttons carry a valid id (24 hex digits: it cannot
    close the [onclick] attribute's quotes). *)
Lemma render_card_spec (b : Blog) :
  isValid (card_id (render_card b)) = true /\
  (card_updated (render_card b) = None <-> createdAt b = updatedAt b).
Proof.
  split; [apply isValid_oid_to_hex|].
  simpl. destruct (Z.eqb_spec (createdAt b) (updatedAt b)); split; congruence.
Qed.


(** C17: after a successful update the form is back in create mode (no
    id, "Create New Blog Post"), but the [finally] block labels the
    button from the id read before the request: it says "Update Blog
    Post" while the next submission creates a new post. *)
Theorem submit_done_stale_label (bid : string) (env : envelope) (u : ui) :
  is_empty bid = false -> success env = true ->
  let u' := fst (submit_done bid (Some env) u) in
  blogId (frm u') = "" /\ form_title u' = "Create New Blog Post" /\
  submit_text u' = "Update Blog Post".
Proof. intros Hb Hs. unfold submit_done. by rewrite Hs, Hb. Qed.

Section Samples.
Definition edit_form_ui : ui :=
  mk_ui (mk_form (oid_to_hex 1) " Hello " "" "World") false "Update Blog Post"
    "Edit Blog Post" true None Loading.

Definition updated_env : envelope :=
  mk_envelope true "Blog post updated successfully" None None None.


Lemma submit_done_stale_label_witness :
  is_empty (oid_to_hex 1) = false /\
  submit_text (fst (submit_done (oid_to_hex 1) (Some updated_env) edit_form_ui))
    = "Update Blog Post".
Proof.
  split; [reflexivity|].
  apply (submit_done_stale_label (oid_to_hex 1) updated_env edit_form_ui); reflexivity.
Defined.

Lemma escapeHtml_injective_witness :
  escapeHtml "a<b&c" = escapeHtml "a<b&c" /\ "a<b&c"%string = "a<b&c"%string.
Proof.
  split; [reflexivity|].
  apply (escapeHtml_injective "a<b&c" "a<b&c"); reflexivity.
Defined.
End Samples.
