(* ===== verification/System.v ===== *)
(** * The running service: request sequences, invariants, client and server

    The server is the router of [Handlers] over a store; a run is a
    sequence of requests, each handled to completion before the next
    (the handlers make one model call each and keep no state of their
    own, so a run is the order in which the store sees them).  This
    file proves, for every lawful store ([BlogModelLaws]):
    - the schema invariant over every reachable state (every stored
      post has a non-empty title and body and is filed under its id);
    - read-after-write: a created post is read back by its id in any
      spelling, an update is read back with its new fields and
      [updatedAt], a deleted post is then 404;
    - the [count] of [GET /blogs] tracks the responses: it grows by one
      per 201 and shrinks by one per successful delete;
    - what the schema does to blank titles and authors, and the
      asymmetry of [author] between create and update;
    and, on the concrete collection, that a submission that passes the
    client's checks is created by the server. *)

From stdpp Require Import base list gmap.
From Stdlib Require Import ZArith String.
From S2P Require Import Prelude JsValue ObjectId Schema Store Collection Handlers Client.

Local Open Scope Z_scope.
Local Open Scope string_scope.

(** ** Each handler keeps the store's invariant *)

Section Invariant.
Context {S : Type} `{BlogModelLaws S}.

Lemma create_blog_inv (now : Z) (rb : jval) (st : S) :
  model_inv st -> model_inv (snd (create_blog now rb st)).
Proof.
  intros Hi. unfold create_blog.
  destruct (truthy _); [destruct (truthy _)|]; simpl; try exact Hi.
  pose proof (save_inv now (prop rb "title") (prop rb "body")
                (js_or (prop rb "author") (JStr author_default)) st Hi) as Hs.
  destruct (Blog_save _ _ _ _ st) as [[d|e] st']; exact Hs.
Qed.

Lemma update_blog_inv (now : Z) (id : string) (rb : jval) (st : S) :
  model_inv st -> model_inv (snd (update_blog now id rb st)).
Proof.
  intros Hi. unfold update_blog.
  destruct (negb (isValid id)); [exact Hi|].
  destruct (negb (truthy _)); [exact Hi|]. destruct (negb (truthy _)); [exact Hi|].
  pose proof (update_inv now id (prop rb "title") (prop rb "body") (prop rb "author") st Hi) as Hs.
  destruct (Blog_findByIdAndUpdate _ _ _ _ _ st) as [[[d|]|e] st']; exact Hs.
Qed.

Lemma delete_blog_inv (id : string) (st : S) :
  model_inv st -> model_inv (snd (delete_blog id st)).
Proof.
  intros Hi. unfold delete_blog. destruct (negb (isValid id)); [exact Hi|].
  pose proof (delete_inv id st Hi) as Hs.
  destruct (Blog_findByIdAndDelete id st) as [[[d|]|e] st']; exact Hs.
Qed.

Lemma get_list_state (id : string) (st : S) :
  snd (get_blog id st) = st /\ snd (list_blogs st) = st.
Proof.
  unfold get_blog, list_blogs. split.
  - destruct (negb (isValid id)); [done|]. by destruct (Blog_findById id st) as [[]|].
  - by destruct (Blog_find st).
Qed.

Lemma route_inv (rq : request) (st : S) : model_inv st -> model_inv (snd (route rq st)).
Proof.
  intros Hi. unfold route. destruct (route_of _ _); simpl; try exact Hi.
  - by apply create_blog_inv.
  - by rewrite (proj2 (get_list_state "" st)).
  - by rewrite (proj1 (get_list_state id st)).
  - by apply update_blog_inv.
  - by apply delete_blog_inv.
Qed.

(** The states a server started on [init] can reach. *)
Inductive reachable (init : S) : S -> Prop :=
| reach_init : reachable init init
| reach_step st rq : reachable init st -> reachable init (snd (route rq st)).

Lemma reachable_inv (init st : S) : model_inv init -> reachable init st -> model_inv st.
Proof. intros Hi. induction 1; [exact Hi|]. by apply route_inv. Qed.

End Invariant.

(** ** Read after write *)

Section ReadAfterWrite.
Context {S : Type} `{BlogModelLaws S}.

(** C10: a post answered 201 is read back, exactly as it was answered,
    by [GET /blogs/:id] with its id in any spelling the id format
    accepts (for instance upper-case hex). *)
Theorem create_then_get (now : Z) (rb : jval) (st : S) (doc : Blog) (s : string) (m : string) :
  model_inv st ->
  fst (create_blog now rb st) = success_with 201 m (PBlog doc) ->
  oid_of_hex s = Some (_id doc) ->
  get_blog s (snd (create_blog now rb st)) =
    (success_with 200 "Blog retrieved successfully" (PBlog doc), snd (create_blog now rb st)).
Proof.
  intros Hi Hc Hs.
  assert (truthy (prop rb "title") = true /\ truthy (prop rb "body") = true) as [Ht Hb].
  { unfold create_blog in Hc.
    destruct (truthy (prop rb "title")), (truthy (prop rb "body")); simpl in Hc;
      try discriminate; auto. }
  pose proof (create_blog_cases now rb st Hi Ht Hb) as Hspec. cbv zeta in Hspec.
  destruct Hspec as [[(doc' & Hc' & _ & _ & _ & Hm) | (e & He & _)] _].
  - rewrite Hc in Hc'. injection Hc' as _ Hd. subst doc'.
    rewrite (get_blog_lookup s _ (create_blog_inv now rb st Hi)), Hs, Hm, lookup_insert_eq.
    reflexivity.
  - rewrite Hc in He. discriminate.
Qed.

(** C11: after a successful [DELETE /blogs/:id] the response carried the
    post as it was stored, and a [GET] of the same id is 404. *)
Theorem delete_then_get (id : string) (k : Z) (st : S) :
  model_inv st -> oid_of_hex id = Some k ->
  fst (delete_blog id st) = found_response "Blog post deleted successfully" (contents st !! k) /\
  get_blog id (snd (delete_blog id st)) = (not_found, snd (delete_blog id st)).
Proof.
  intros Hi Hk. destruct (delete_blog_outcome id k st Hi Hk) as [Hr Hc].
  split; [exact Hr|].
  rewrite (get_blog_lookup id _ (delete_blog_inv id st Hi)), Hk, Hc, lookup_delete_eq.
  reflexivity.
Qed.

(** C12: a successful [PUT /blogs/:id] with string title and body stores
    and returns the old post with the title trimmed, the body verbatim,
    the author as the request's [author] casts ([undefined] keeps it,
    [null] clears it, a string is trimmed and stored even when empty: no
    default applies), [createdAt] and [_id] kept and [updatedAt] the
    request time; a following [GET] returns it. *)
Theorem update_then_get (now : Z) (id : string) (k : Z) (rb : jval) (st : S)
    (d : Blog) (t b : string) (ua : option (option string)) :
  model_inv st -> oid_of_hex id = Some k -> contents st !! k = Some d ->
  prop rb "title" = JStr t -> prop rb "body" = JStr b ->
  is_empty (js_trim t) = false -> is_empty b = false ->
  cast_update_path "author" true (prop rb "author") = Ok ua ->
  let d' := mkBlog k (js_trim t) b (default (author d) ua) (createdAt d) now (__v d) in
  fst (update_blog now id rb st) = success_with 200 "Blog post updated successfully" (PBlog d') /\
  get_blog id (snd (update_blog now id rb st)) =
    (success_with 200 "Blog retrieved successfully" (PBlog d'), snd (update_blog now id rb st)).
Proof.
  intros Hi Hk Hd Ht Hb Htn Hbn Ha d'.
  assert (truthy (prop rb "title") = true) as Ht'.
  { rewrite Ht. simpl. destruct t; [discriminate|reflexivity]. }
  assert (truthy (prop rb "body") = true) as Hb'.
  { rewrite Hb. simpl. by rewrite Hbn. }
  destruct (update_blog_outcome now id k rb st Hi Hk Ht' Hb') as [Hr Hc].
  assert (update_outcome now (prop rb "title") (prop rb "body") (prop rb "author")
            (contents st !! k) = Ok (Some d')) as Ho.
  { unfold update_outcome, cast_update. rewrite Ht, Hb, Ha. simpl.
    unfold validate_update. simpl. rewrite Htn, Hbn. simpl. rewrite Hd. simpl.
    destruct (contents_wf st k d Hi Hd) as [_ <-]. reflexivity. }
  rewrite Ho in Hr, Hc. split; [exact Hr|].
  rewrite (get_blog_lookup id _ (update_blog_inv now id rb st Hi)), Hk, Hc. simpl.
  by rewrite lookup_insert_eq.
Qed.
End ReadAfterWrite.

(** ** The number of posts over a run *)

Section Count.
Context {S : Type} `{BlogModelLaws S}.

(** What a response says about the number of stored posts: one more
    after a 201, one fewer after a successful DELETE. *)
Definition size_delta (rq : request) (r : reply) : Z :=
  match method rq, r with
  | POST, Reply resp => if Z.eqb (status resp) 201 then 1 else 0
  | DELETE, Reply resp => if Z.eqb (status resp) 200 then -1 else 0
  | _, _ => 0
  end.

(** A run of requests, each handled to completion before the next. *)
Fixpoint run (rqs : list request) (st : S) : list reply * S :=
  match rqs with
  | [] => ([], st)
  | rq :: rest =>
      let '(r, st1) := route rq st in
      let '(rs, st2) := run rest st1 in
      (r :: rs, st2)
  end.

Fixpoint total_delta (rqs : list request) (rs : list reply) : Z :=
  match rqs, rs with
  | rq :: rqs', r :: rs' => size_delta rq r + total_delta rqs' rs'
  | _, _ => 0
  end.

Lemma route_of_method (m : http_method) (p : list string) :
  match route_of m p with
  | EpCreate => m = POST
  | EpList | EpGet _ | EpIndex => m = GET
  | EpUpdate _ => m = PUT
  | EpDelete _ => m = DELETE
  | EpNone => True
  end.
Proof.
  destruct p as [|s [|s' [|]]]; simpl; [by destruct m| | |done];
    destruct (String.eqb s "blogs"); by destruct m.
Qed.

Lemma create_blog_size (now : Z) (rb : jval) (st : S) :
  model_inv st ->
  Z.of_nat (size (contents (snd (create_blog now rb st)))) =
  Z.of_nat (size (contents st)) + (if Z.eqb (status (fst (create_blog now rb st))) 201 then 1 else 0).
Proof.
  intros Hi. unfold create_blog.
  destruct (truthy (prop rb "title")); [|simpl; lia].
  destruct (truthy (prop rb "body")); [|simpl; lia]. simpl.
  destruct (Blog_save _ _ _ _ st) as [[doc|e] st'] eqn:Sv; simpl.
  - destruct (save_ok _ _ _ _ _ _ _ Hi Sv) as (_ & _ & F & ->).
    rewrite map_size_insert_None by exact F. lia.
  - rewrite (save_err _ _ _ _ _ _ _ Hi Sv). lia.
Qed.

Lemma delete_blog_size (id : string) (st : S) :
  model_inv st ->
  Z.of_nat (size (contents (snd (delete_blog id st)))) =
  Z.of_nat (size (contents st)) - (if Z.eqb (status (fst (delete_blog id st))) 200 then 1 else 0).
Proof.
  intros Hi. destruct (isValid id) eqn:V.
  - destruct (oid_of_hex_Some id V) as [k Hk].
    destruct (delete_blog_outcome id k st Hi Hk) as [Hr Hc]. rewrite Hr, Hc.
    destruct (contents st !! k) as [d|] eqn:Hd; simpl.
    + pose proof (map_size_ne_0_lookup_2 (contents st) k ltac:(eauto)).
      rewrite map_size_delete_Some by eauto. lia.
    + rewrite delete_id by exact Hd. lia.
  - unfold delete_blog. rewrite V. simpl. lia.
Qed.

Lemma update_blog_size (now : Z) (id : string) (rb : jval) (st : S) :
  model_inv st -> size (contents (snd (update_blog now id rb st))) = size (contents st).
Proof.
  intros Hi. destruct (isValid id) eqn:V; [|unfold update_blog; by rewrite V].
  destruct (truthy (prop rb "title")) eqn:Ht; [|unfold update_blog; by rewrite V, Ht].
  destruct (truthy (prop rb "body")) eqn:Hb; [|unfold update_blog; by rewrite V, Ht, Hb].
  destruct (oid_of_hex_Some id V) as [k Hk].
  destruct (update_blog_outcome now id k rb st Hi Hk Ht Hb) as [_ ->].
  unfold update_outcome. destruct (cast_update _ _ _) as [u|]; simpl; [|done].
  destruct (validate_update u) as [c|]; simpl; [|done].
  destruct (contents st !! k) as [d|] eqn:Hd; simpl; [|done].
  by rewrite map_size_insert_Some by eauto.
Qed.

Lemma route_size (rq : request) (st : S) :
  model_inv st ->
  Z.of_nat (size (contents (snd (route rq st)))) =
  Z.of_nat (size (contents st)) + size_delta rq (fst (route rq st)).
Proof.
  intros Hi. unfold route, size_delta.
  pose proof (route_of_method (method rq) (path rq)) as Hm.
  destruct (route_of (method rq) (path rq)); simpl; rewrite ?Hm.
  - apply create_blog_size, Hi.
  - rewrite (proj2 (get_list_state "" st)). lia.
  - rewrite (proj1 (get_list_state id st)). lia.
  - rewrite update_blog_size by exact Hi. lia.
  - rewrite delete_blog_size by exact Hi. destruct (Z.eqb _ _); lia.
  - lia.
  - destruct (method rq); lia.
Qed.

(** C13: over any run of requests, the number of stored posts (the
    [count] [GET /blogs] answers) changes by one for every 201 and by
    minus one for every successful DELETE, and by nothing else: from an
    empty store, [count] is the number of creations minus the number of
    deletions the server acknowledged. *)
Theorem run_count (rqs : list request) (st : S) :
  model_inv st ->
  Z.of_nat (size (contents (snd (run rqs st)))) =
  Z.of_nat (size (contents st)) + total_delta rqs (fst (run rqs st)).
Proof.
  revert st. induction rqs as [|rq rqs IH]; intros st Hi; simpl; [lia|].
  pose proof (route_size rq st Hi) as Hs. pose proof (route_inv rq st Hi) as Hi'.
  destruct (route rq st) as [r st1]. simpl in *.
  pose proof (IH st1 Hi') as IH1. destruct (run rqs st1) as [rs st2]. simpl in *. lia.
Qed.
End Count.

(** ** What the schema does to blank fields *)

Section BlankFields.
Context {S : Type} `{BlogModelLaws S}.

Lemma create_not_both (now : Z) (rb : jval) (st : S) (e : merror) :
  model_inv st -> truthy (prop rb "title") = true -> truthy (prop rb "body") = true ->
  fst (create_blog now rb st) = server_error e ->
  contents (snd (create_blog now rb st)) = contents st.
Proof.
  intros Hi Ht Hb He.
  pose proof (create_blog_cases now rb st Hi Ht Hb) as Hspec. cbv zeta in Hspec.
  destruct Hspec as [[(doc & Hc & _) | (e' & _ & Hc)] _]; [|exact Hc].
  rewrite He in Hc. discriminate.
Qed.

(** C14: a title made only of whitespace passes the handler's [!title]
    check (a non-empty string is truthy) and is trimmed to [""] by the
    schema, whose [required] validator then rejects it: the client gets
    500 "Server error" with Mongoose's validation message, not the 400
    "Validation failed" the handler gives an empty title; nothing is
    stored. *)
Theorem create_blank_title_500 (now : Z) (rb : jval) (st : S) (t b a : string) :
  model_inv st ->
  prop rb "title" = JStr t -> prop rb "body" = JStr b -> prop rb "author" = JStr a ->
  is_empty t = false -> all_ws t = true -> is_empty b = false ->
  fst (create_blog now rb st) = server_error (ValidationError (Some "Blog") [("title", Required)]) /\
  contents (snd (create_blog now rb st)) = contents st.
Proof.
  intros Hi Ht Hb Ha Htn Hws Hbn.
  assert (truthy (prop rb "title") = true) as Ht' by (rewrite Ht; by apply truthy_JStr_nonempty).
  assert (truthy (prop rb "body") = true) as Hb' by (rewrite Hb; by apply truthy_JStr_nonempty).
  assert (fst (create_blog now rb st) =
          server_error (ValidationError (Some "Blog") [("title", Required)])) as Hr.
  { pose proof (create_blog_cases now rb st Hi Ht' Hb') as Hspec. cbv zeta in Hspec.
    destruct Hspec as [_ Hinv]. apply (Hinv 0).
    rewrite Ht, Hb, Ha, js_or_str.
    assert (js_trim t = EmptyString) as Et by (by apply js_trim_empty_iff).
    destruct (is_empty a); rewrite validate_new_str, Et, Hbn; reflexivity. }
  split; [exact Hr|]. exact (create_not_both now rb st _ Hi Ht' Hb' Hr).
Qed.

(** C15: the author a created post is stored with: the request's author
    trimmed when it is a non-empty string, "Anonymous" when it is absent,
    [null], [false], [0] or [""]. A non-empty author made of whitespace
    is stored as [""]: [author || 'Anonymous'] sees a truthy string and
    the schema's default only applies to [undefined]. *)
Theorem create_author_stored (now : Z) (rb : jval) (st : S) (t b : string) (doc : Blog) (m : string) :
  model_inv st ->
  prop rb "title" = JStr t -> prop rb "body" = JStr b ->
  (truthy (prop rb "author") = false \/ exists a, prop rb "author" = JStr a) ->
  fst (create_blog now rb st) = success_with 201 m (PBlog doc) ->
  title doc = js_trim t /\ body doc = b /\ createdAt doc = now /\ updatedAt doc = now /\
  author doc = Some (match prop rb "author" with
                     | JStr a => if is_empty a then author_default else js_trim a
                     | _ => author_default
                     end).
Proof.
  intros Hi Ht Hb Ha Hc.
  assert (truthy (prop rb "title") = true /\ truthy (prop rb "body") = true) as [Ht' Hb'].
  { unfold create_blog in Hc.
    destruct (truthy (prop rb "title")), (truthy (prop rb "body")); simpl in Hc;
      try discriminate; auto. }
  pose proof (create_blog_cases now rb st Hi Ht' Hb') as Hspec. cbv zeta in Hspec.
  destruct Hspec as [[(doc' & Hc' & V & _) | (e & He & _)] _];
    [|rewrite Hc in He; discriminate].
  rewrite Hc in Hc'. injection Hc' as _ <-.
  rewrite Ht, Hb in V.
  destruct Ha as [Hf | (a & Ea)].
  - rewrite (js_or_falsy _ _ Hf), validate_new_str in V.
    destruct (is_empty (js_trim t)), (is_empty b); try discriminate.
    injection V as <-. simpl. repeat split; try reflexivity.
    destruct (prop rb "author") as [| |x|x|a|x|x]; try reflexivity.
    simpl in Hf. destruct (is_empty a); [reflexivity|discriminate].
  - rewrite Ea, js_or_str in V. rewrite Ea.
    destruct (is_empty a); rewrite validate_new_str in V;
      destruct (is_empty (js_trim t)), (is_empty b); try discriminate; injection V as <-; done.
Qed.
End BlankFields.

(** ** Client and server together *)

Lemma blog_data_props (t b a : string) :
  prop (blog_data t b a) "title" = JStr t /\
  prop (blog_data t b a) "body" = JStr b /\
  prop (blog_data t b a) "author" = JStr (if is_empty a then author_default else a).
Proof. unfold blog_data. rewrite js_or_str. by destruct (is_empty a). Qed.

(** C16: a submission in create mode that passes the client's own
    checks (non-blank title and body) is never refused by the server:
    on the collection, with the generated id not already taken, the
    request the client sends is answered 201 with the post it typed,
    trimmed, its author defaulted to "Anonymous" when blank, and both
    timestamps the request time. *)
Theorem client_create_accepted (now : Z) (u : ui) (c : Collection) :
  is_empty (blogId (frm u)) = true ->
  is_empty (js_trim (titleIn (frm u))) = false ->
  is_empty (js_trim (bodyIn (frm u))) = false ->
  find_doc (fst (generate now (gen c))) (docs c) = None ->
  let t := js_trim (titleIn (frm u)) in
  let b := js_trim (bodyIn (frm u)) in
  let a := js_trim (authorIn (frm u)) in
  exists rq,
    snd (submit_request now u) = Some rq /\
    fst (route rq c) =
      Reply (success_with 201 "Blog post created successfully"
        (PBlog (mkBlog (fst (generate now (gen c))) t b
                  (Some (if is_empty a then author_default else a)) now now 0))).
Proof.
  intros Hid Ht Hb Hf t b a.
  exists (mk_request POST ["blogs"] (blog_data t b a) now).
  split; [unfold submit_request; simpl; rewrite Ht, Hb, Hid; reflexivity|].
  unfold route. simpl. unfold create_blog.
  destruct (blog_data_props t b a) as (-> & -> & ->).
  rewrite !truthy_JStr_nonempty by assumption. simpl.
  rewrite js_or_str.
  assert (is_empty (if is_empty a then author_default else a) = false) as Ha.
  { destruct (is_empty a) eqn:E; [reflexivity|exact E]. }
  rewrite Ha.
  assert (validate_new (fst (generate now (gen c))) now
            (make_draft (JStr t) (JStr b) (JStr (if is_empty a then author_default else a))) =
          Ok (mkBlog (fst (generate now (gen c))) t b
                (Some (if is_empty a then author_default else a)) now now 0)) as V.
  { assert (is_empty t = false) as Ht' by exact Ht.
    assert (is_empty b = false) as Hb' by exact Hb.
    rewrite validate_new_str.
    replace (js_trim t) with t by (unfold t; symmetry; apply js_trim_idem). rewrite Ht', Hb'.
    do 3 f_equal. destruct (is_empty a) eqn:E; [reflexivity|]. unfold a. apply js_trim_idem. }
  change (Blog_save now (JStr t) (JStr b) _ c) with
    (coll_save now (JStr t) (JStr b) (JStr (if is_empty a then author_default else a)) c).
  rewrite (coll_save_fresh _ _ _ _ _ _ V Hf). reflexivity.
Qed.

(** ** Concrete runs *)

Section Samples.
Definition c0 : Collection := empty_collection g0.

Definition create_rq (t : string) (now : Z) : request :=
  mk_request POST ["blogs"] (JObj [("title", JStr t); ("body", JStr "Body")]) now.

Definition first_id : Z := fst (generate 5000 g0).

Definition c1 : Collection := snd (route (create_rq "First" 5000) c0).

Definition first_doc : Blog := mkBlog first_id "First" "Body" (Some "Anonymous") 5000 5000 0.

Lemma c0_inv : model_inv c0.
Proof. apply empty_collection_inv. Qed.


(** The id printed in upper case still reads the post back. *)
Definition upper_first_id : string := "00000005000000000700002A".

Lemma create_then_get_witness :
  oid_of_hex upper_first_id = Some first_id /\
  get_blog upper_first_id c1 =
    (success_with 200 "Blog retrieved successfully" (PBlog first_doc), c1).
Proof.
  assert (oid_of_hex upper_first_id = Some first_id) as Hs by (vm_compute; reflexivity).
  split; [exact Hs|].
  apply (create_then_get (S:=Collection) 5000 (req_body (create_rq "First" 5000)) c0 first_doc
           upper_first_id "Blog post created successfully" c0_inv); [vm_compute; reflexivity|exact Hs].
Defined.

Lemma delete_then_get_witness :
  oid_of_hex (oid_to_hex first_id) = Some first_id /\
  get_blog (oid_to_hex first_id) (snd (delete_blog (oid_to_hex first_id) c1)) =
    (not_found, snd (delete_blog (oid_to_hex first_id) c1)).
Proof.
  assert (model_inv c1) as Hi by (apply route_inv, c0_inv).
  assert (oid_of_hex (oid_to_hex first_id) = Some first_id) as Hk by (vm_compute; reflexivity).
  split; [exact Hk|]. exact (proj2 (delete_then_get (oid_to_hex first_id) first_id c1 Hi Hk)).
Defined.

Lemma update_then_get_witness :
  fst (update_blog 9000 (oid_to_hex 1) edit_body sample_coll) =
    success_with 200 "Blog post updated successfully"
      (PBlog (mkBlog 1 "New" "Text" (Some "Ann") 1000 9000 0)).
Proof.
  exact (proj1 (update_then_get (S:=Collection) 9000 (oid_to_hex 1) 1 edit_body sample_coll
    sample_doc " New " "Text" (Some (Some "Ann")) sample_model_inv eq_refl eq_refl
    eq_refl eq_refl eq_refl eq_refl eq_refl)).
Defined.

Definition sample_run : list request :=
  [create_rq "First" 5000; create_rq "Second" 6000;
   mk_request DELETE ["blogs"; oid_to_hex first_id] JUndef 7000].

Lemma run_count_witness :
  total_delta sample_run (fst (run sample_run c0)) = 1 /\
  Z.of_nat (size (contents (snd (run sample_run c0)))) = 1.
Proof.
  assert (total_delta sample_run (fst (run sample_run c0)) = 1) as Ht by (vm_compute; reflexivity).
  split; [exact Ht|]. rewrite (run_count sample_run c0 c0_inv), Ht. reflexivity.
Defined.

Definition blank_title_body : jval :=
  JObj [("title", JStr "   "); ("body", JStr "Body"); ("author", JStr "Ann")].

Lemma create_blank_title_500_witness :
  status (fst (create_blog 5000 blank_title_body c0)) = 500.
Proof.
  rewrite (proj1 (create_blank_title_500 5000 blank_title_body c0 "   " "Body" "Ann" c0_inv
    eq_refl eq_refl eq_refl eq_refl eq_refl eq_refl)).
  reflexivity.
Defined.

Definition blank_author_body : jval :=
  JObj [("title", JStr "T"); ("body", JStr "B"); ("author", JStr "  ")].

Lemma create_author_stored_witness :
  author (mkBlog first_id "T" "B" (Some "") 5000 5000 0) = Some "" /\
  fst (create_blog 5000 blank_author_body c0) =
    success_with 201 "Blog post created successfully"
      (PBlog (mkBlog first_id "T" "B" (Some "") 5000 5000 0)).
Proof.
  assert (fst (create_blog 5000 blank_author_body c0) =
    success_with 201 "Blog post created successfully"
      (PBlog (mkBlog first_id "T" "B" (Some "") 5000 5000 0))) as Hc by (vm_compute; reflexivity).
  split; [|exact Hc].
  destruct (create_author_stored 5000 blank_author_body c0 "T" "B" _ _ c0_inv eq_refl eq_refl
              (or_intror (ex_intro _ "  " eq_refl)) Hc) as (_ & _ & _ & _ & ->).
  reflexivity.
Defined.

Definition filled_ui : ui :=
  mk_ui (mk_form "" "  My title " "" "Some text") false "Create Blog Post"
    "Create New Blog Post" false None Loading.

Lemma client_create_accepted_witness :
  exists rq, snd (submit_request 5000 filled_ui) = Some rq /\
    fst (route rq c0) =
      Reply (success_with 201 "Blog post created successfully"
        (PBlog (mkBlog first_id "My title" "Some text" (Some "Anonymous") 5000 5000 0))).
Proof.
  exact (client_create_accepted 5000 filled_ui c0 eq_refl eq_refl eq_refl eq_refl).
Defined.
End Samples.
